(** * privacyidea token janitor: selection and batch-action pipeline

    A shallow embedding of [tools/pi-token-janitor.py]: the comparator
    factories, the criterion parsing of [find], the scan-and-filter generator
    [_get_tokenlist] and the action commands, followed by the properties the
    specification states about them.

    Python values are embedded as follows: [str] as [string], [int] as [Z],
    [None]-able options as [option], dictionaries as [gmap], raised
    exceptions as the [Raise] case of [result].  Library code the script
    imports (dateutil, re, the privacyidea token library) is not part of the
    script; it is taken as an interface ([Libraries], [TokenLibrary]). *)

From Stdlib Require Import ZArith String Ascii List Bool Lia DecimalString Sorted.
From stdpp Require Import base option list strings gmap.

Local Open Scope string_scope.
Local Open Scope list_scope.
Local Open Scope Z_scope.

(** ** Python basics *)

Module Py.

(** The exception classes the script raises, catches or lets through. *)
Inductive exn_class :=
| ValueError | TypeError | IndexError | AttributeError | UnboundLocalError
| OverflowError | ReError | ClickException | RuntimeError.

Record exn := Exn { exn_cls : exn_class; exn_msg : string }.

Definition exn_class_eqb (a b : exn_class) : bool :=
  match a, b with
  | ValueError, ValueError | TypeError, TypeError | IndexError, IndexError
  | AttributeError, AttributeError | UnboundLocalError, UnboundLocalError
  | OverflowError, OverflowError | ReError, ReError
  | ClickException, ClickException | RuntimeError, RuntimeError => true
  | _, _ => false
  end.

(** The outcome of evaluating an expression: a value or a raised exception. *)
Inductive result (A : Type) :=
| Ok (a : A)
| Raise (e : exn).
Arguments Ok {A} a.
Arguments Raise {A} e.

Definition bind {A B} (r : result A) (f : A -> result B) : result B :=
  match r with
  | Ok a => f a
  | Raise e => Raise e
  end.

(** [try: body  except cls: handler] *)
Definition try_except {A} (body : result A) (cls : exn_class) (handler : exn -> result A)
  : result A :=
  match body with
  | Ok a => Ok a
  | Raise e => if exn_class_eqb (exn_cls e) cls then handler e else Raise e
  end.

(** [try: body  except: handler] (bare except, catches everything). *)
Definition try_except_all {A} (body : result A) (handler : result A) : result A :=
  match body with
  | Ok a => Ok a
  | Raise _ => handler
  end.

Definition is_ok {A} (r : result A) : bool :=
  match r with Ok _ => true | Raise _ => false end.

(** Stored field values: tokeninfo values are [str]; token columns are
    [str], [int] or [bool].  [None] is the absence of a value ([option]). *)
Inductive pyval :=
| VBool (b : bool)
| VInt (n : Z)
| VStr (s : string).

(** Truthiness of an optional string ([None] and [''] are false). *)
Definition truthy (o : option string) : bool :=
  match o with
  | Some s => negb (String.eqb s "")
  | None => false
  end.

(** [x or ""] *)
Definition or_empty (o : option string) : string :=
  match o with
  | Some s => if String.eqb s "" then "" else s
  | None => ""
  end.

Definition nl : string := String (ascii_of_nat 10) EmptyString.
Definition cr : string := String (ascii_of_nat 13) EmptyString.

(** ["{0}".format(n)] for a non-negative counter. *)
Definition str_of_nat (n : nat) : string := NilZero.string_of_uint (Nat.to_uint n).

(** Aware and naive [datetime] values: the wall-clock time in microseconds
    and, for an aware value, the UTC offset of its [tzinfo]. *)
Record datetime := Datetime { wall : Z; tzinfo : option Z }.

(** [a > b] and [a < b] on datetimes: mixing naive and aware raises. *)
Definition mixed_compare : exn :=
  Exn TypeError "can't compare offset-naive and offset-aware datetimes".

Definition instant (d : datetime) : Z :=
  match tzinfo d with
  | Some off => wall d - off
  | None => wall d
  end.

Definition datetime_cmp (rel : Z -> Z -> bool) (a b : datetime) : result bool :=
  match tzinfo a, tzinfo b with
  | Some _, Some _ | None, None => Ok (rel (instant a) (instant b))
  | _, _ => Raise mixed_compare
  end.

Definition datetime_gt := datetime_cmp Z.gtb.
Definition datetime_lt := datetime_cmp Z.ltb.

End Py.
Import Py.

Notation "x <- c1 ;; c2" := (Py.bind c1 (fun x => c2))
  (at level 100, c1 at next level, right associativity).

(** ** Imported library functions

    What the script calls but does not define.  [int_of_str] is the built-in
    [int] on a [str] ([None] is its [ValueError]); [re_search p s] tells
    whether [re.search(p, s)] finds a match and raises for a pattern that
    does not compile; [parser_parse] is dateutil's [parser.parse(v)] (also
    with [dayfirst=False], its default) and [parser_parse_tzutc] is
    [parser.parse(v, tzinfos=tzutc)]; [parse_legacy_time] is privacyidea's
    helper; [tzlocal_utcoffset w] is the offset [tzlocal()] assigns to wall
    time [w]; [ACTION_LASTAUTH] is the constant [ACTION.LASTAUTH];
    [str_upper], [str_lower] and [str_strip] are the methods of [str];
    [str_is a b] is the identity test [a is b] of a string against a
    literal. *)
Class Libraries := {
  int_of_str : string -> option Z;
  re_search : string -> string -> result bool;
  parser_parse : pyval -> result datetime;
  parser_parse_tzutc : pyval -> result datetime;
  parse_legacy_time : pyval -> result pyval;
  tzlocal_utcoffset : Z -> Z;
  ACTION_LASTAUTH : string;
  str_upper : string -> string;
  str_lower : string -> string;
  str_strip : string -> string;
  str_is : string -> string -> bool
}.

(** ** Comparator factories (lines 121-225) *)

Definition comparator := pyval -> result bool.

Section ComparatorFactory.
Context `{Libraries}.

(** The built-in [int(value)]. *)
Definition py_int (value : pyval) : result Z :=
  match value with
  | VInt n => Ok n
  | VBool b => Ok (if b then 1 else 0)
  | VStr s =>
      match int_of_str s with
      | Some n => Ok n
      | None => Raise (Exn ValueError ("invalid literal for int() with base 10: '" +:+ s +:+ "'"))
      end
  end.

Definition _try_convert_to_integer (given_value_string : string) : result Z :=
  try_except (py_int (VStr given_value_string)) ValueError
    (fun _ => Raise (Exn ClickException ("Not an integer: " +:+ given_value_string))).

Definition _compare_greater_than (_key : string) (given_value_string : string)
  : result comparator :=
  given_value <- _try_convert_to_integer given_value_string ;;
  Ok (fun value =>
        try_except (n <- py_int value ;; Ok (n >? given_value))
          ValueError (fun _ => Ok false)).

Definition _compare_less_than (_key : string) (given_value_string : string)
  : result comparator :=
  given_value <- _try_convert_to_integer given_value_string ;;
  Ok (fun value =>
        try_except (n <- py_int value ;; Ok (n <? given_value))
          ValueError (fun _ => Ok false)).

Definition _parse_datetime (key : string) (value : pyval) : result datetime :=
  if String.eqb key ACTION_LASTAUTH then
    last_auth <- parser_parse value ;;
    match tzinfo last_auth with
    | None => parser_parse_tzutc value
    | Some _ => Ok last_auth
    end
  else
    legacy <- parse_legacy_time value ;;
    parser_parse legacy.

Definition _try_convert_to_datetime (given_value_string : string) : result datetime :=
  try_except
    (parsed <- parser_parse (VStr given_value_string) ;;
     match tzinfo parsed with
     | None => Ok (Datetime (wall parsed) (Some (tzlocal_utcoffset (wall parsed))))
     | Some _ => Ok parsed
     end)
    ValueError
    (fun _ => Raise (Exn ClickException
                       ("Not a valid datetime format: " +:+ given_value_string))).

Definition _compare_after (key : string) (given_value_string : string)
  : result comparator :=
  given_value <- _try_convert_to_datetime given_value_string ;;
  Ok (fun value =>
        try_except (d <- _parse_datetime key value ;; datetime_gt d given_value)
          ValueError (fun _ => Ok false)).

Definition _compare_before (key : string) (given_value_string : string)
  : result comparator :=
  given_value <- _try_convert_to_datetime given_value_string ;;
  Ok (fun value =>
        try_except (d <- _parse_datetime key value ;; datetime_lt d given_value)
          ValueError (fun _ => Ok false)).

Definition _compare_regex_or_equal (_key : string) (given_regex : string)
  : result comparator :=
  Ok (fun value =>
        match value with
        | VInt n =>
            given_value <- _try_convert_to_integer given_regex ;;
            Ok (given_value =? n)
        | VBool b =>
            given_value <- _try_convert_to_integer given_regex ;;
            Ok (given_value =? (if b then 1 else 0))
        | VStr s => re_search given_regex s
        end).

(** [build_tokenvalue_filter] (lines 228-262): one comparator per supplied
    (truthy) option, in this order. *)
Definition append_if (o : option string) (mk : string -> result comparator)
    (tvfilter : list comparator) : result (list comparator) :=
  match o with
  | Some v =>
      if truthy o then (c <- mk v ;; Ok (tvfilter ++ [c])%list) else Ok tvfilter
  | None => Ok tvfilter
  end.

Definition build_tokenvalue_filter (key : string)
    (tokeninfo_value tokeninfo_value_greater_than tokeninfo_value_less_than
     tokeninfo_value_after tokeninfo_value_before : option string)
  : result (list comparator) :=
  tvfilter <- append_if tokeninfo_value (_compare_regex_or_equal key) [] ;;
  tvfilter <- append_if tokeninfo_value_greater_than (_compare_greater_than key) tvfilter ;;
  tvfilter <- append_if tokeninfo_value_less_than (_compare_less_than key) tvfilter ;;
  tvfilter <- append_if tokeninfo_value_after (_compare_after key) tvfilter ;;
  append_if tokeninfo_value_before (_compare_before key) tvfilter.

(** The five comparison kinds of the factory, and the factory function of
    each. *)
Inductive comparison := EQ | GT | LT | AFTER | BEFORE.

Definition make_comparator (op : comparison) : string -> string -> result comparator :=
  match op with
  | EQ => _compare_regex_or_equal
  | GT => _compare_greater_than
  | LT => _compare_less_than
  | AFTER => _compare_after
  | BEFORE => _compare_before
  end.

(** Whether the operand and the field value can be coerced to the domain
    of a comparison. *)
Definition operand_coercible (op : comparison) (operand : string) : bool :=
  match op with
  | EQ => true
  | GT | LT => is_ok (_try_convert_to_integer operand)
  | AFTER | BEFORE => is_ok (_try_convert_to_datetime operand)
  end.

Definition field_coercible (op : comparison) (key : string) (v : pyval) : bool :=
  match op with
  | EQ => true
  | GT | LT => is_ok (py_int v)
  | AFTER | BEFORE => is_ok (_parse_datetime key v)
  end.

End ComparatorFactory.

(** ** The regular expression of the criterion parser

    [find] matches its filter expressions with
    [re.match(r"\s*[a-z][A-Z][0-9]\s*([<>=])\s*$", text)].  The fragment of
    [re] this pattern uses is embedded as a backtracking matcher: a pattern is
    a sequence of atoms, [*] is greedy and gives back characters when the rest
    of the pattern fails, a group captures the text it matched. *)

Module Re.

Inductive atom :=
| Class (p : ascii -> bool)     (* one character of a class: [a-z] *)
| Star (p : ascii -> bool)      (* zero or more characters of a class: \s* *)
| Group (p : ascii -> bool)     (* a capturing group around a class: ([<>=]) *)
| EndOfString.                  (* $ *)

Definition pattern := list atom.

Definition in_range (lo hi : string) (c : ascii) : bool :=
  match lo, hi with
  | String l _, String h _ =>
      (Nat.leb (nat_of_ascii l) (nat_of_ascii c) && Nat.leb (nat_of_ascii c) (nat_of_ascii h))%bool
  | _, _ => false
  end.

Definition one_of (chars : string) (c : ascii) : bool :=
  existsb (Ascii.eqb c) (list_ascii_of_string chars).

(** [\s] on the ASCII range: tab, newline, vertical tab, form feed,
    carriage return, the four separators 28-31 and the space. *)
Definition whitespace (c : ascii) : bool :=
  let n := nat_of_ascii c in
  ((Nat.leb 9 n && Nat.leb n 13) || (Nat.leb 28 n && Nat.leb n 32))%bool.

(** A match: the text of group 0 and the texts of the capturing groups. *)
Record match_obj := Match { whole : string; groups : list string }.

(** [$] matches at the end and before a newline that ends the string. *)
Definition at_end (s : string) : bool :=
  (String.eqb s "" || String.eqb s nl)%bool.

Definition consume (c : ascii) (m : option match_obj) : option match_obj :=
  match m with
  | Some (Match w g) => Some (Match (String c w) g)
  | None => None
  end.

Definition capture (c : ascii) (m : option match_obj) : option match_obj :=
  match m with
  | Some (Match w g) => Some (Match (String c w) (String c "" :: g))
  | None => None
  end.

(** Greedy repetition of a class, then the continuation [k]; on failure one
    character is given back at a time. *)
Fixpoint star_then (p : ascii -> bool) (k : string -> option match_obj) (s : string)
  : option match_obj :=
  match s with
  | String c s' =>
      if p c then
        match consume c (star_then p k s') with
        | Some m => Some m
        | None => k s
        end
      else k s
  | EmptyString => k s
  end.

Fixpoint match_here (r : pattern) (s : string) : option match_obj :=
  match r with
  | [] => Some (Match "" [])
  | Class p :: r' =>
      match s with
      | String c s' => if p c then consume c (match_here r' s') else None
      | EmptyString => None
      end
  | Star p :: r' => star_then p (match_here r') s
  | Group p :: r' =>
      match s with
      | String c s' => if p c then capture c (match_here r' s') else None
      | EmptyString => None
      end
  | EndOfString :: r' => if at_end s then match_here r' s else None
  end.

(** [re.match(pattern, string)]: [None] as the subject is a [TypeError]. *)
Definition re_match (r : pattern) (text : option string) : result (option match_obj) :=
  match text with
  | Some s => Ok (match_here r s)
  | None => Raise (Exn TypeError "expected string or bytes-like object")
  end.

(** [m.group(n)] on the value [re.match] returned. *)
Definition group (m : option match_obj) (n : nat) : result string :=
  match m with
  | None => Raise (Exn AttributeError "'NoneType' object has no attribute 'group'")
  | Some mo =>
      match n with
      | O => Ok (whole mo)
      | S i =>
          match nth_error (groups mo) i with
          | Some g => Ok g
          | None => Raise (Exn IndexError "no such group")
          end
      end
  end.

Definition count_groups (r : pattern) : nat :=
  List.length (List.filter (fun a => match a with Group _ => true | _ => false end) r).

End Re.

(** ** The criterion parsing of [find] (lines 458-493) *)

Section CriterionCompiler.
Context `{Libraries}.

(** r"\s*[a-z][A-Z][0-9]\s*([<>=])\s*$" *)
Definition criterion_pattern : Re.pattern :=
  [ Re.Star Re.whitespace;
    Re.Class (Re.in_range "a" "z"); Re.Class (Re.in_range "A" "Z");
    Re.Class (Re.in_range "0" "9");
    Re.Star Re.whitespace;
    Re.Group (Re.one_of "<>=");
    Re.Star Re.whitespace;
    Re.EndOfString ].

(** The local variables the branches of [find] assign; [None] is a variable
    that has not been assigned. *)
Record criterion_vars := CriterionVars {
  var_value : option string;
  var_greater_than : option string;
  var_less_than : option string;
  var_after : option string;
  var_before : option string
}.

Definition unassigned : criterion_vars := CriterionVars None None None None None.

Definition read_local (name : string) (v : option string) : result (option string) :=
  match v with
  | Some s => Ok (Some s)
  | None => Raise (Exn UnboundLocalError
                     ("local variable '" +:+ name +:+ "' referenced before assignment"))
  end.

(** Lines 459-473: the tokeninfo expression. *)
Definition tokeninfo_criterion (tokeninfo : option string)
  : result (string * criterion_vars) :=
  m <- Re.re_match criterion_pattern tokeninfo ;;
  tokeninfo_key <- Re.group m 0 ;;
  op <- Re.group m 1 ;;
  vars <- (if String.eqb op "==" then
             v <- Re.group m 2 ;;
             Ok (CriterionVars (Some v) None None None None)
           else
             try_except_all
               (op <- Re.group m 1 ;;
                if String.eqb op ">=" then
                  v <- Re.group m 2 ;;
                  Ok (CriterionVars None None None (Some v) None)
                else
                  op <- Re.group m 1 ;;
                  if String.eqb op "<=" then
                    v <- Re.group m 2 ;;
                    Ok (CriterionVars None None None None (Some v))
                  else Ok unassigned)
               (op <- Re.group m 1 ;;
                if String.eqb op "<=" then
                  v <- Re.group m 2 ;;
                  Ok (CriterionVars None (Some v) None None None)
                else
                  op <- Re.group m 1 ;;
                  if String.eqb op ">=" then
                    v <- Re.group m 2 ;;
                    Ok (CriterionVars None None (Some v) None None)
                  else Ok unassigned)) ;;
  Ok (tokeninfo_key, vars).

(** Lines 481-488: the token attribute expression. *)
Definition tokenattribute_criterion (tokenattribute : option string)
  : result (string * criterion_vars) :=
  m <- Re.re_match criterion_pattern tokenattribute ;;
  tokenattribute_key <- Re.group m 0 ;;
  op <- Re.group m 1 ;;
  vars <- (if String.eqb op "==" then
             v <- Re.group m 2 ;;
             Ok (CriterionVars (Some v) None None None None)
           else
             op <- Re.group m 1 ;;
             if String.eqb op "<=" then
               v <- Re.group m 2 ;;
               Ok (CriterionVars None (Some v) None None None)
             else
               op <- Re.group m 1 ;;
               if String.eqb op ">=" then
                 v <- Re.group m 2 ;;
                 Ok (CriterionVars None None (Some v) None None)
               else Ok unassigned) ;;
  Ok (tokenattribute_key, vars).

(** The two filters [find] hands to [_get_tokenlist], with the tokeninfo
    key.  The arguments of each call are read left to right. *)
Definition find_criteria (tokeninfo tokenattribute : option string)
  : result (string * list comparator * list comparator) :=
  kv <- tokeninfo_criterion tokeninfo ;;
  let tokeninfo_key := fst kv in
  tokeninfo_value <- read_local "tokeninfo_value" (var_value (snd kv)) ;;
  tokeninfo_value_greater_than <-
    read_local "tokeninfo_value_greater_than" (var_greater_than (snd kv)) ;;
  tokeninfo_value_less_than <-
    read_local "tokeninfo_value_less_than" (var_less_than (snd kv)) ;;
  tokeninfo_value_after <- read_local "tokeninfo_value_after" (var_after (snd kv)) ;;
  tokeninfo_value_before <- read_local "tokeninfo_value_before" (var_before (snd kv)) ;;
  tvfilter <- build_tokenvalue_filter tokeninfo_key tokeninfo_value
                tokeninfo_value_greater_than tokeninfo_value_less_than
                tokeninfo_value_after tokeninfo_value_before ;;
  ka <- tokenattribute_criterion tokenattribute ;;
  let tokenattribute_key := fst ka in
  tokenattribute_value <- read_local "tokenattribute_value" (var_value (snd ka)) ;;
  tokenattribute_value_greater_than <-
    read_local "tokenattribute_value_greater_than" (var_greater_than (snd ka)) ;;
  tokenattribute_value_less_than <-
    read_local "tokenattribute_value_less_than" (var_less_than (snd ka)) ;;
  tafilter <- build_tokenvalue_filter tokenattribute_key tokenattribute_value
                tokenattribute_value_greater_than tokenattribute_value_less_than
                None None ;;
  Ok (tokeninfo_key, tvfilter, tafilter).

End CriterionCompiler.

(** ** Token objects, output streams and the trace of a run *)

(** The owner of a token as [token_obj.user] resolves it; reading [info]
    asks the resolver and may raise. *)
Record user_obj := User {
  user_login : string;
  user_uid : string;
  user_resolver : string;
  user_realm : string;
  user_info : result (gmap string string)
}.

(** A token object: the columns of [token_obj.token], the tokeninfo
    dictionary, and the answers of the methods the script calls.  A user that
    is [None] or empty (false in a condition) is [Ok None]. *)
Record tokenobj := TokenObj {
  token_serial : string;
  token_tokentype : string;
  token_description : string;
  token_columns : gmap string pyval;          (* token_obj.token.get(name) *)
  get_tokeninfo : gmap string string;         (* token_obj.get_tokeninfo() *)
  check_last_auth_newer : string -> bool;
  is_orphaned : bool;
  token_user : result (option user_obj)
}.

Inductive stream := Stdout | Stderr.

(** What a written text is: progress telemetry, a diagnostic about a record
    that failed or was skipped, or part of the result payload. *)
Inductive kind := Progress | Diagnostic | Payload.

(** The checks of the selector, in the order of lines 295-328. *)
Inductive stage :=
| Recency | SerialPattern | DescriptionPattern | KeyAbsence | KeyPresence
| TokeninfoValue | AttributeValue | OrphanRequired | OrphanForbidden.

Definition stage_rank (st : stage) : nat :=
  match st with
  | Recency => 0 | SerialPattern => 1 | DescriptionPattern => 2
  | KeyAbsence => 3 | KeyPresence => 4 | TokeninfoValue => 5
  | AttributeValue => 6 | OrphanRequired => 7 | OrphanForbidden => 8
  end%nat.

(** What a run does that can be observed: it writes to a stream, it
    evaluates the condition of a check on the current record ([Checked], with
    whether the record passed it), it applies the [i]-th comparator of a
    value filter ([Called]), and the generator yields a list. *)
Inductive event :=
| Emit (s : stream) (k : kind) (text : string)
| Checked (st : stage) (passed : bool)
| Called (st : stage) (i : nat)
| Yield (l : list tokenobj).

(** A computation that leaves a trace and returns or raises. *)
Definition traced (A : Type) : Type := list event * result A.

Module Traced.

Definition ret {A} (a : A) : traced A := ([], Ok a).

Definition bind {A B} (m : traced A) (f : A -> traced B) : traced B :=
  match m with
  | (log, Ok a) => let (log', r) := f a in ((log ++ log')%list, r)
  | (log, Raise e) => (log, Raise e)
  end.

Definition emit (e : event) : traced unit := ([e], Ok tt).

Definition lift {A} (r : result A) : traced A := ([], r).

(** [sys.stderr.write(text)] and [print(text)]. *)
Definition stderr_write (k : kind) (text : string) : traced unit :=
  emit (Emit Stderr k text).

Definition print (k : kind) (text : string) : traced unit :=
  emit (Emit Stdout k (text +:+ nl)).

End Traced.

Notation "x <~ c1 ;; c2" := (Traced.bind c1 (fun x => c2))
  (at level 100, c1 at next level, right associativity).
Notation "c1 ;;~ c2" := (Traced.bind c1 (fun _ => c2))
  (at level 100, right associativity).

(** Projections of a trace. *)
Definition verdicts (log : list event) : list (stage * bool) :=
  flat_map (fun e => match e with Checked st b => [(st, b)] | _ => [] end) log.

Definition calls (log : list event) : list (stage * nat) :=
  flat_map (fun e => match e with Called st i => [(st, i)] | _ => [] end) log.

Definition yields (log : list event) : list (list tokenobj) :=
  flat_map (fun e => match e with Yield l => [l] | _ => [] end) log.

Definition writes (log : list event) : list (stream * kind * string) :=
  flat_map (fun e => match e with Emit s k t => [(s, k, t)] | _ => [] end) log.

(** ** The selector [_get_tokenlist] (lines 265-337) *)

(** The arguments of [_get_tokenlist]. *)
Record selection := Selection {
  last_auth : option string;
  assigned : option string;
  active : option string;
  tokeninfo_key : option string;
  tokeninfo_value_filter : list comparator;
  tokenattribute : option string;
  tokenattribute_filter : list comparator;
  orphaned : option string;
  tokentype : option string;
  serial : option string;
  description : option string;
  chunksize : option Z;
  has_not_tokeninfo_key : option string;
  has_tokeninfo_key : option string
}.

(** The token library of privacyidea on a store state [store]: the queries
    and the state changes the script calls.  A state change returns the new
    state and may raise.  [tokenrealms_split] is what
    [tokenrealms.split(",")] evaluates to inside the command [tokenrealms];
    [token_to_dict] is [tokenobj._to_dict(b32=...)]; [yaml_safe_dump] and
    [export_pskc] are the two encoders. *)
Class TokenLibrary (store : Type) := {
  get_tokens : store -> option string -> option bool -> option bool -> list tokenobj;
  enable_token : string -> bool -> store -> store * result unit;
  remove_token : string -> store -> store * result unit;
  unassign_token : string -> store -> store * result unit;
  tokenrealms_split : result (list string);
  token_set_realms : tokenobj -> list string -> store -> store * result unit;
  token_set_description : tokenobj -> string -> store -> store * result unit;
  token_add_tokeninfo : tokenobj -> string -> string -> store -> store * result unit;
  token_del_tokeninfo : tokenobj -> string -> store -> store * result unit;
  token_save : tokenobj -> store -> store * result unit;
  token_to_dict : tokenobj -> option string -> result (gmap string string);
  yaml_safe_dump : list (gmap string string) -> string;
  export_pskc : list tokenobj -> result (string * nat * string)
}.

(** Consecutive slices of at most [psize] elements, none of them empty. *)
Fixpoint pages_of {A} (fuel : nat) (psize : nat) (l : list A) : list (list A) :=
  match fuel, l with
  | _, [] => []
  | O, _ => []
  | S fuel', _ => take psize l :: pages_of fuel' psize (drop psize l)
  end.

(** Modelled from the spec: [get_tokens_paginated_generator] is imported from
    the token library and is not part of the script.  With a chunk size the
    scanner "produces a sequence of batches of at most chunkSize records
    each", over the structurally filtered result set that the unchunked fetch
    returns as one batch: the consecutive slices of that result.  The spec
    says nothing about a chunk size below one; no batch is produced then. *)
Definition get_tokens_paginated_generator {store} `{TokenLibrary store} (s : store)
    (tokentype : option string) (active assigned : option bool) (psize : Z)
  : list (list tokenobj) :=
  if psize <=? 0 then []
  else let l := get_tokens s tokentype active assigned in
       pages_of (List.length l) (Z.to_nat psize) l.

Section Selector.
Context `{Libraries} {store : Type} `{TokenLibrary store}.

(** [all(comparator(value) for comparator in filter)]: the comparators are
    applied in order until one returns false or raises. *)
Fixpoint all_comparators (st : stage) (i : nat) (fs : list comparator) (value : pyval)
  : traced bool :=
  match fs with
  | [] => Traced.ret true
  | f :: fs' =>
      Traced.emit (Called st i) ;;~
      b <~ Traced.lift (f value) ;;
      if b then all_comparators st (S i) fs' value else Traced.ret false
  end.

(** One [if guard and condition: continue] of the loop body: when the
    guard holds, the condition is evaluated; a record that does not pass
    leaves the body ([continue]), otherwise the body goes on. *)
Definition stage_check (st : stage) (guard : bool) (passes : traced bool)
    (rest : traced bool) : traced bool :=
  if guard then
    ok <~ passes ;;
    Traced.emit (Checked st ok) ;;~
    if ok then rest else Traced.ret false
  else rest.

Definition nonempty {A} (l : list A) : bool :=
  match l with [] => false | _ => true end.

Definition str_in (s : string) (l : list string) : bool := existsb (String.eqb s) l.

(** The value filter of lines 308-324 on a looked-up value. *)
Definition value_filter (st : stage) (fs : list comparator) (value : option pyval)
  : traced bool :=
  match value with
  | None => Traced.ret false
  | Some v => all_comparators st 0 fs v
  end.

(** The body of the loop over one batch (lines 295-328) for one token
    object: [true] when it reaches [filtered_list.append]. *)
Definition check_token (o : selection) (token_obj : tokenobj) : traced bool :=
  let orphaned := or_empty (orphaned o) in
  stage_check Recency (truthy (last_auth o))
    (Traced.ret (negb (check_last_auth_newer token_obj (or_empty (last_auth o)))))
  (stage_check SerialPattern (truthy (serial o))
    (Traced.lift (re_search (or_empty (serial o)) (token_serial token_obj)))
  (stage_check DescriptionPattern (truthy (description o))
    (Traced.lift (re_search (or_empty (description o)) (token_description token_obj)))
  (stage_check KeyAbsence (truthy (has_not_tokeninfo_key o))
    (Traced.ret (negb (bool_decide
       (is_Some (get_tokeninfo token_obj !! or_empty (has_not_tokeninfo_key o))))))
  (stage_check KeyPresence (truthy (has_tokeninfo_key o))
    (Traced.ret (bool_decide
       (is_Some (get_tokeninfo token_obj !! or_empty (has_tokeninfo_key o)))))
  (stage_check TokeninfoValue
    (nonempty (tokeninfo_value_filter o) && truthy (tokeninfo_key o))
    (value_filter TokeninfoValue (tokeninfo_value_filter o)
       (VStr <$> get_tokeninfo token_obj !! or_empty (tokeninfo_key o)))
  (stage_check AttributeValue
    (nonempty (tokenattribute_filter o) && truthy (tokenattribute o))
    (value_filter AttributeValue (tokenattribute_filter o)
       (token_columns token_obj !! or_empty (tokenattribute o)))
  (stage_check OrphanRequired (str_in (str_upper orphaned) ["1"; "TRUE"])
    (Traced.ret (is_orphaned token_obj))
  (stage_check OrphanForbidden (str_in (str_upper orphaned) ["0"; "FALSE"])
    (Traced.ret (negb (is_orphaned token_obj)))
  (Traced.ret true))))))))).

Definition progress_line (tok_count tok_found : nat) (ending : string) : string :=
  str_of_nat tok_count +:+ " Tokens processed / " +:+ str_of_nat tok_found
    +:+ " Tokens found" +:+ ending.

(** The inner loop (lines 291-332) with its counters and its list. *)
Fixpoint scan_tokens (o : selection) (tokenobj_list : list tokenobj)
    (tok_count tok_found : nat) (filtered_list : list tokenobj)
  : traced (nat * nat * list tokenobj) :=
  match tokenobj_list with
  | [] => Traced.ret (tok_count, tok_found, filtered_list)
  | token_obj :: rest =>
      Traced.stderr_write Progress (progress_line tok_count tok_found cr) ;;~
      matched <~ check_token o token_obj ;;
      if matched then
        scan_tokens o rest (S tok_count) (S tok_found) (filtered_list ++ [token_obj])
      else
        scan_tokens o rest (S tok_count) tok_found filtered_list
  end.

(** One round of the outer loop (lines 287-337): scan a batch and yield
    its matches. *)
Definition scan_batch (o : selection) (tokenobj_list : list tokenobj) : traced unit :=
  Traced.stderr_write Progress ("++ Creating token object list." +:+ nl) ;;~
  counted <~ scan_tokens o tokenobj_list 0 0 [] ;;
  let '(tok_count, tok_found, filtered_list) := counted in
  Traced.stderr_write Progress (progress_line tok_count tok_found (cr +:+ nl)) ;;~
  Traced.stderr_write Progress ("++ Token object list created." +:+ nl) ;;~
  Traced.emit (Yield filtered_list).

Fixpoint scan_batches (o : selection) (iterable : list (list tokenobj)) : traced unit :=
  match iterable with
  | [] => Traced.ret tt
  | tokenobj_list :: rest => scan_batch o tokenobj_list ;;~ scan_batches o rest
  end.

Definition tri_state (flag : option string) : option bool :=
  match flag with
  | Some v => Some (String.eqb (str_lower v) "true")
  | None => None
  end.

Definition _get_tokenlist (s : store) (o : selection) : traced unit :=
  let filter_assigned := tri_state (assigned o) in
  let filter_active := tri_state (active o) in
  let iterable :=
    match chunksize o with
    | Some psize =>
        get_tokens_paginated_generator s (tokentype o) filter_active filter_assigned psize
    | None => [get_tokens s (tokentype o) filter_active filter_assigned]
    end in
  scan_batches o iterable.

(** *** Vocabulary of the selector's properties *)

(** A record is matched when its loop body reaches [append]. *)
Definition matches (o : selection) (token_obj : tokenobj) : bool :=
  match snd (check_token o token_obj) with
  | Ok true => true
  | _ => false
  end.

(** The matched subset of a batch, or the first error of a check. *)
Fixpoint select (o : selection) (batch : list tokenobj) : result (list tokenobj) :=
  match batch with
  | [] => Ok []
  | token_obj :: rest =>
      matched <- snd (check_token o token_obj) ;;
      kept <- select o rest ;;
      Ok (if matched then token_obj :: kept else kept)
  end.

Definition passed (v : stage * bool) : Prop := snd v = true.

(** Checks recorded in the order of the stages, each at most once. *)
Definition in_stage_order (vs : list (stage * bool)) : Prop :=
  StronglySorted lt (map (fun v => stage_rank (fst v)) vs).

(** The guard of a value filter and the value it looks up. *)
Definition filter_guard (o : selection) (st : stage) : bool :=
  match st with
  | TokeninfoValue => nonempty (tokeninfo_value_filter o) && truthy (tokeninfo_key o)
  | AttributeValue => nonempty (tokenattribute_filter o) && truthy (tokenattribute o)
  | _ => false
  end.

Definition looked_up (o : selection) (token_obj : tokenobj) (st : stage) : option pyval :=
  match st with
  | TokeninfoValue => VStr <$> get_tokeninfo token_obj !! or_empty (tokeninfo_key o)
  | AttributeValue => token_columns token_obj !! or_empty (tokenattribute o)
  | _ => None
  end.

(** A condition records comparator calls of one stage and nothing else. *)
Definition condition_of (st : stage) (m : traced bool) : Prop :=
  Forall (fun e => exists i, e = Called st i) (fst m).

(** The verdicts of a computation whose checks start at stage rank [lo]:
    they are in stage order, and either all passed or all but the last
    passed and the computation excludes the record. *)
Definition staged (lo : nat) (m : traced bool) : Prop :=
  in_stage_order (verdicts (fst m)) /\
  Forall (fun v => (lo <= stage_rank (fst v))%nat) (verdicts (fst m)) /\
  match snd m with
  | Ok false =>
      exists pre st, verdicts (fst m) = pre ++ [(st, false)] /\ Forall passed pre
  | _ => Forall passed (verdicts (fst m))
  end.

(** A computation that excludes the record stops right after the check that
    failed: the failing verdict is the last event of its trace. *)
Definition stops_at_failure (m : traced bool) : Prop :=
  snd m = Ok false -> exists log st, fst m = log ++ [Checked st false].

(** The events that record the evaluation of a check. *)
Definition is_probe (e : event) : Prop :=
  match e with
  | Checked _ _ | Called _ _ => True
  | Emit _ _ _ | Yield _ => False
  end.

(** A text that is progress telemetry on the error stream. *)
Definition progress_on_stderr (w : stream * kind * string) : Prop :=
  fst w = (Stderr, Progress).

(** Not matched, and no comparator of stage [st] applied. *)
Definition excluded_uncompared (st : stage) (m : traced bool) : Prop :=
  snd m <> Ok true /\ forall i, ~ In (st, i) (calls (fst m)).

Definition with_chunksize (o : selection) (c : option Z) : selection :=
  Selection (last_auth o) (assigned o) (active o) (tokeninfo_key o)
    (tokeninfo_value_filter o) (tokenattribute o) (tokenattribute_filter o)
    (orphaned o) (tokentype o) (serial o) (description o) c
    (has_not_tokeninfo_key o) (has_tokeninfo_key o).

Definition with_last_auth (o : selection) (a : option string) : selection :=
  Selection a (assigned o) (active o) (tokeninfo_key o)
    (tokeninfo_value_filter o) (tokenattribute o) (tokenattribute_filter o)
    (orphaned o) (tokentype o) (serial o) (description o) (chunksize o)
    (has_not_tokeninfo_key o) (has_tokeninfo_key o).

(** *** The selection in the words of the specification

    Section 4.4 of the specification gives the selection as a procedure of
    its own: "For every record in the batch, evaluation order is: recency,
    serial pattern, description pattern, tokeninfo-key presence/absence,
    FilterSet against the declared tokeninfo value or column value, orphan
    state.  First failing check excludes the record; no further checks run",
    and the matched subset preserves the input order.  The definitions below
    follow these words and not the loop body: a table of the checks (when a
    check is asked for, what it requires of a record), the order as a list,
    and an evaluation that walks the list.  They are compared with
    [check_token] and [scan_batch] in the properties. *)

(** "Evaluation order is": the checks as a list. *)
Definition evaluation_order : list stage :=
  [Recency; SerialPattern; DescriptionPattern; KeyAbsence; KeyPresence;
   TokeninfoValue; AttributeValue; OrphanRequired; OrphanForbidden].

(** Whether the options ask for a check. *)
Definition requested (o : selection) (st : stage) : bool :=
  match st with
  | Recency => truthy (last_auth o)
  | SerialPattern => truthy (serial o)
  | DescriptionPattern => truthy (description o)
  | KeyAbsence => truthy (has_not_tokeninfo_key o)
  | KeyPresence => truthy (has_tokeninfo_key o)
  | TokeninfoValue =>
      nonempty (tokeninfo_value_filter o) && truthy (tokeninfo_key o)
  | AttributeValue =>
      nonempty (tokenattribute_filter o) && truthy (tokenattribute o)
  | OrphanRequired => str_in (str_upper (or_empty (orphaned o))) ["1"; "TRUE"]
  | OrphanForbidden => str_in (str_upper (or_empty (orphaned o))) ["0"; "FALSE"]
  end.

(** "Evaluation is conjunctive: a record matches only if every predicate
    returns true; short-circuits on first false."  A predicate that raises
    ends the conjunction with its error. *)
Fixpoint conjunction (fs : list comparator) (value : pyval) : result bool :=
  match fs with
  | [] => Ok true
  | f :: fs' => b <- f value ;; if b then conjunction fs' value else Ok false
  end.

(** A FilterSet against a declared value: a record without the value does
    not match. *)
Definition filter_set_on (fs : list comparator) (value : option pyval) : result bool :=
  match value with
  | Some v => conjunction fs v
  | None => Ok false
  end.

(** What a check requires of a record: the record was not used since the
    given age, the pattern is found in the serial or in the description, the
    tokeninfo key is absent or present, the FilterSet holds of the declared
    tokeninfo value or column value, the record is orphaned or is not. *)
Definition satisfies (o : selection) (record : tokenobj) (st : stage) : result bool :=
  match st with
  | Recency => Ok (negb (check_last_auth_newer record (or_empty (last_auth o))))
  | SerialPattern => re_search (or_empty (serial o)) (token_serial record)
  | DescriptionPattern => re_search (or_empty (description o)) (token_description record)
  | KeyAbsence =>
      Ok (negb (bool_decide
                  (is_Some (get_tokeninfo record !! or_empty (has_not_tokeninfo_key o)))))
  | KeyPresence =>
      Ok (bool_decide (is_Some (get_tokeninfo record !! or_empty (has_tokeninfo_key o))))
  | TokeninfoValue =>
      filter_set_on (tokeninfo_value_filter o)
        (VStr <$> get_tokeninfo record !! or_empty (tokeninfo_key o))
  | AttributeValue =>
      filter_set_on (tokenattribute_filter o)
        (token_columns record !! or_empty (tokenattribute o))
  | OrphanRequired => Ok (is_orphaned record)
  | OrphanForbidden => Ok (negb (is_orphaned record))
  end.

(** The checks of a list evaluated on a record, with the short circuit: the
    checks that ran, each with its verdict, and whether the record is kept.
    A check that was not asked for does not run; "first failing check
    excludes the record; no further checks run"; a check that raises ends
    the evaluation with its error. *)
Fixpoint evaluate (o : selection) (record : tokenobj) (checks : list stage)
  : list (stage * bool) * result bool :=
  match checks with
  | [] => ([], Ok true)
  | st :: later =>
      if requested o st then
        match satisfies o record st with
        | Ok true =>
            let (ran, kept) := evaluate o record later in ((st, true) :: ran, kept)
        | Ok false => ([(st, false)], Ok false)
        | Raise e => ([], Raise e)
        end
      else evaluate o record later
  end.

(** A record is accepted when the evaluation in the fixed order keeps it. *)
Definition accepted (o : selection) (record : tokenobj) : bool :=
  match snd (evaluate o record evaluation_order) with
  | Ok true => true
  | _ => false
  end.

(** "[select(batch, filterSet, extraPredicates)] -> matched subset,
    preserving input order": the records of the batch are evaluated one
    after the other; the first error of a check is the error of the batch. *)
Fixpoint selected (o : selection) (batch : list tokenobj) : result (list tokenobj) :=
  match batch with
  | [] => Ok []
  | record :: rest =>
      keep <- snd (evaluate o record evaluation_order) ;;
      kept <- selected o rest ;;
      Ok (if keep then record :: kept else kept)
  end.

(** What a trace of a check shows of it: the verdicts in the order in which
    they were recorded, and the outcome. *)
Definition observe (m : traced bool) : list (stage * bool) * result bool :=
  (verdicts (fst m), snd m).

End Selector.

(** ** Actions on the matched records (lines 340-696)

    An action runs on a store state, leaves a trace and returns or raises. *)

Definition acting (store A : Type) : Type := store -> store * traced A.

Module Acting.
Section Monad.
Context {store : Type}.

Definition ret {A} (a : A) : acting store A := fun s => (s, Traced.ret a).

Definition bind {A B} (m : acting store A) (f : A -> acting store B) : acting store B :=
  fun s =>
    match m s with
    | (s1, (log1, Ok a)) =>
        match f a s1 with
        | (s2, (log2, r)) => (s2, ((log1 ++ log2)%list, r))
        end
    | (s1, (log1, Raise e)) => (s1, (log1, Raise e))
    end.

(** A call into the token library. *)
Definition call {A} (op : store -> store * result A) : acting store A :=
  fun s => match op s with (s1, r) => (s1, ([], r)) end.

(** A computation that does not touch the store. *)
Definition pure {A} (m : traced A) : acting store A := fun s => (s, m).

Definition raise {A} (e : exn) : acting store A := pure (Traced.lift (Raise e)).

(** [try: body  except Exception as exx: handler(exx)]; every class of
    [exn_class] derives from [Exception]. *)
Definition try_exception {A} (body : acting store A) (handler : exn -> acting store A)
  : acting store A :=
  fun s =>
    match body s with
    | (s1, (log1, Ok a)) => (s1, (log1, Ok a))
    | (s1, (log1, Raise e)) =>
        match handler e s1 with
        | (s2, (log2, r)) => (s2, ((log1 ++ log2)%list, r))
        end
    end.

Definition print (k : kind) (text : string) : acting store unit :=
  pure (Traced.print k text).

Definition stderr_write (k : kind) (text : string) : acting store unit :=
  pure (Traced.stderr_write k text).

(** [for x in l: body(x)] *)
Fixpoint for_each {A} (l : list A) (body : A -> acting store unit) : acting store unit :=
  match l with
  | [] => ret tt
  | x :: rest => bind (body x) (fun _ => for_each rest body)
  end.

Definition when (b : bool) (body : acting store unit) : acting store unit :=
  if b then body else ret tt.

End Monad.
End Acting.

Notation "x <:- c1 ;; c2" := (Acting.bind c1 (fun x => c2))
  (at level 100, c1 at next level, right associativity).
Notation "c1 ;;: c2" := (Acting.bind c1 (fun _ => c2))
  (at level 100, right associativity).

(** [s.split(sep)] for a one-character separator. *)
Fixpoint py_split (sep : ascii) (s : string) : list string :=
  match s with
  | EmptyString => [""]
  | String c s' =>
      if Ascii.eqb c sep then "" :: py_split sep s'
      else match py_split sep s' with
           | h :: t => String c h :: t
           | [] => [String c ""]
           end
  end.

(** [sep.join(l)] *)
Fixpoint py_join (sep : string) (l : list string) : string :=
  match l with
  | [] => ""
  | [x] => x
  | x :: rest => x +:+ sep +:+ py_join sep rest
  end.

Definition quoted (x : string) : string := "'" +:+ x +:+ "'".

(** [d.get(key, "")] *)
Definition get_or_empty (d : gmap string string) (key : string) : string :=
  default "" (d !! key).

(** *** Vocabulary of the actions' properties *)

(** The trace and the outcome of an action run on the state [s]. *)
Definition log_of {store A} (m : acting store A) (s : store) : list event := fst (snd (m s)).

Definition outcome_of {store A} (m : acting store A) (s : store) : result A := snd (snd (m s)).

(** Payload on the standard output, everything else on the error stream. *)
Definition separated (w : stream * kind * string) : Prop :=
  match snd (fst w) with
  | Payload => fst (fst w) = Stdout
  | Progress | Diagnostic => fst (fst w) = Stderr
  end.

Definition on_stdout (w : stream * kind * string) : Prop := fst (fst w) = Stdout.

(** Every text a computation writes satisfies [P]. *)
Definition traced_writes (P : stream * kind * string -> Prop) {A} (m : traced A) : Prop :=
  Forall P (writes (fst m)).

Definition acting_writes (P : stream * kind * string -> Prop) {store A}
    (m : acting store A) : Prop :=
  forall s, Forall P (writes (log_of m s)).

(** An action that returns on every state. *)
Definition always_returns {store} (m : acting store unit) : Prop :=
  forall s, outcome_of m s = Ok tt.

Module Action.
Section Commands.
Context `{Libraries} {store : Type} `{TokenLibrary store}.

Definition failed_to_process (token_obj : tokenobj) (exx : exn) : acting store unit :=
  Acting.print Diagnostic ("Failed to process token " +:+ token_serial token_obj +:+ ".") ;;:
  Acting.print Diagnostic (exn_msg exx).

(** [tokenrealms] (lines 584-596) *)
Definition tokenrealms (generator : list (list tokenobj)) : acting store unit :=
  Acting.for_each generator (fun tlist =>
    Acting.for_each tlist (fun token_obj =>
      Acting.try_exception
        (parts <:- Acting.pure (Traced.lift tokenrealms_split) ;;
         let trealms :=
           map str_strip (List.filter (fun r => negb (String.eqb r "")) parts) in
         Acting.call (token_set_realms token_obj trealms) ;;:
         Acting.print Progress
           ("Setting realms of token " +:+ token_serial token_obj +:+ " to "
              +:+ "[" +:+ py_join ", " (map quoted trealms) +:+ "]" +:+ "."))
        (failed_to_process token_obj))).

(** [disable] (lines 601-612) *)
Definition disable (generator : list (list tokenobj)) : acting store unit :=
  Acting.for_each generator (fun tlist =>
    Acting.for_each tlist (fun token_obj =>
      Acting.try_exception
        (Acting.call (enable_token (token_serial token_obj) false) ;;:
         Acting.print Progress ("Disabling token " +:+ token_serial token_obj))
        (failed_to_process token_obj))).

(** [delete] (lines 617-628) *)
Definition delete (generator : list (list tokenobj)) : acting store unit :=
  Acting.for_each generator (fun tlist =>
    Acting.for_each tlist (fun token_obj =>
      Acting.try_exception
        (Acting.call (remove_token (token_serial token_obj)) ;;:
         Acting.print Progress ("Deleting token " +:+ token_serial token_obj))
        (failed_to_process token_obj))).

(** [unassign] (lines 633-644) *)
Definition unassign (generator : list (list tokenobj)) : acting store unit :=
  Acting.for_each generator (fun tlist =>
    Acting.for_each tlist (fun token_obj =>
      Acting.try_exception
        (Acting.call (unassign_token (token_serial token_obj)) ;;:
         Acting.print Progress ("Unassigning token " +:+ token_serial token_obj))
        (failed_to_process token_obj))).

(** [set_description] (lines 650-659) *)
Definition set_description (description : option string)
    (generator : list (list tokenobj)) : acting store unit :=
  Acting.for_each generator (fun tlist =>
    Acting.for_each tlist (fun token_obj =>
      Acting.when (truthy description)
        (Acting.print Progress
           ("Setting description for token " +:+ token_serial token_obj +:+ ": "
              +:+ or_empty description) ;;:
         Acting.call (token_set_description token_obj (or_empty description)) ;;:
         Acting.call (token_save token_obj)))).

(** [x = token.split(":")], then [x[0]] and [x[1]]. *)
Definition value_and_key (token : string) : result (string * string) :=
  match py_split ":" token with
  | x0 :: x1 :: _ => Ok (x0, x1)
  | _ => Raise (Exn IndexError "list index out of range")
  end.

Definition split_option (sep : ascii) (o : option string) : result (list string) :=
  match o with
  | Some s => Ok (py_split sep s)
  | None => Raise (Exn AttributeError "'NoneType' object has no attribute 'split'")
  end.

(** [set_tokeninfo] (lines 665-679) *)
Definition set_tokeninfo (tokeninfo : option string)
    (generator : list (list tokenobj)) : acting store unit :=
  tokeninfos <:- Acting.pure (Traced.lift (split_option "," tokeninfo)) ;;
  Acting.for_each generator (fun tlist =>
    Acting.for_each tokeninfos (fun token =>
      x <:- Acting.pure (Traced.lift (value_and_key token)) ;;
      let tokeninfo_value := fst x in
      let tokeninfo_key := snd x in
      Acting.for_each tlist (fun token_obj =>
        Acting.when (negb (String.eqb tokeninfo_value "")
                       && negb (String.eqb tokeninfo_key ""))
          (Acting.print Progress
             ("Setting tokeninfo for token " +:+ token_serial token_obj +:+ ": "
                +:+ tokeninfo_key +:+ "=" +:+ tokeninfo_value) ;;:
           Acting.call (token_add_tokeninfo token_obj tokeninfo_key tokeninfo_value) ;;:
           Acting.call (token_save token_obj))))).

(** [delete_tokeninfo] (lines 685-696) *)
Definition delete_tokeninfo (tokeninfo : option string)
    (generator : list (list tokenobj)) : acting store unit :=
  tokeninfos <:- Acting.pure (Traced.lift (split_option "," tokeninfo)) ;;
  Acting.for_each generator (fun tlist =>
    Acting.for_each tokeninfos (fun tokeninfo =>
      Acting.for_each tlist (fun token_obj =>
        Acting.when (negb (String.eqb tokeninfo ""))
          (Acting.print Progress
             ("Deleting tokeninfo for token " +:+ token_serial token_obj +:+ ": "
                +:+ tokeninfo) ;;:
           Acting.call (token_del_tokeninfo token_obj tokeninfo) ;;:
           Acting.call (token_save token_obj))))).

(** *** Listing and export (lines 340-414 and 520-579) *)

Definition user_columns (user : user_obj) : result (list string) :=
  info <- user_info user ;;
  Ok [ get_or_empty info "username"; get_or_empty info "givenname";
       get_or_empty info "surname"; user_uid user; user_resolver user;
       user_realm user ].

Definition no_info : exn :=
  Exn AttributeError "'NoneType' object has no attribute 'info'".

(** [for att in attributes.split(","): ... user.info.get(att, "")] *)
Definition attribute_columns (user : option user_obj) (attributes : option string)
  : result (list string) :=
  if truthy attributes then
    match user with
    | Some u =>
        info <- user_info u ;;
        Ok (map (get_or_empty info) (py_split "," (or_empty attributes)))
    | None => Raise no_info
    end
  else Ok [].

(** One round of the loop of [export_token_data]. *)
Definition export_token_row (token_obj : tokenobj) (attributes : option string)
  : traced (list string) :=
  let token_data := [token_serial token_obj; token_tokentype token_obj] in
  match (user <- token_user token_obj ;;
         cols <- match user with Some u => user_columns u | None => Ok [] end ;;
         atts <- attribute_columns user attributes ;;
         Ok (cols ++ atts)%list) with
  | Ok more => Traced.ret (token_data ++ more)%list
  | Raise _ =>
      Traced.stderr_write Diagnostic
        ("Failed to determine user for token " +:+ token_serial token_obj +:+ "." +:+ nl) ;;~
      Traced.ret (token_data ++ ["**failed to resolve user**"])%list
  end.

Fixpoint export_token_data (token_list : list tokenobj) (attributes : option string)
  : traced (list (list string)) :=
  match token_list with
  | [] => Traced.ret []
  | token_obj :: rest =>
      token_data <~ export_token_row token_obj attributes ;;
      tokens <~ export_token_data rest attributes ;;
      Traced.ret (token_data :: tokens)
  end.

(** [users[uid].append(serial)] or [users[uid] = [serial]], on a dictionary
    in insertion order. *)
Fixpoint users_add (users : list (string * list string)) (uid serial : string)
  : list (string * list string) :=
  match users with
  | [] => [(uid, [serial])]
  | (k, serials) :: rest =>
      if String.eqb k uid then (k, (serials ++ [serial])%list) :: rest
      else (k, serials) :: users_add rest uid serial
  end.

Definition user_uid_string (user : option user_obj) (attributes : option string)
  : result string :=
  match user with
  | Some u =>
      cols <- user_columns u ;;
      atts <- (if truthy attributes then attribute_columns user attributes else Ok []) ;;
      Ok (py_join "," (map quoted cols)
            +:+ String.concat "" (map (fun a => "," +:+ quoted a) atts))
  | None => Ok ("N/A" +:+ ", , , , , ")
  end.

(** The loop of [export_user_data]; [user] is the local variable of that
    name, [None] while it has not been assigned. *)
Fixpoint export_user_data_loop (token_list : list tokenobj) (attributes : option string)
    (user : option (option user_obj)) (users : list (string * list string))
  : traced (list (string * list string)) :=
  match token_list with
  | [] => Traced.ret users
  | token_obj :: rest =>
      user <~ match token_user token_obj with
              | Ok u => Traced.ret (Some u)
              | Raise _ =>
                  Traced.stderr_write Diagnostic
                    ("Failed to determine user for token " +:+ token_serial token_obj
                       +:+ "." +:+ nl) ;;~
                  Traced.ret user
              end ;;
      bound <~ Traced.lift
                 (match user with
                  | Some u => Ok u
                  | None => Raise (Exn UnboundLocalError
                              "local variable 'user' referenced before assignment")
                  end) ;;
      uid <~ Traced.lift (user_uid_string bound attributes) ;;
      export_user_data_loop rest attributes user
        (users_add users uid (token_serial token_obj))
  end.

Definition export_user_data (token_list : list tokenobj) (attributes : option string)
  : traced (list (string * list string)) :=
  export_user_data_loop token_list attributes None [].

(** [listuser] (lines 520-531) *)
Definition listuser (sum_tokens : bool) (attributes : option string)
    (generator : list (list tokenobj)) : acting store unit :=
  Acting.for_each generator (fun tlist =>
    if negb sum_tokens then
      tokens <:- Acting.pure (export_token_data tlist attributes) ;;
      Acting.for_each tokens (fun token =>
        Acting.print Payload (py_join "," (map quoted token)))
    else
      users <:- Acting.pure (export_user_data tlist attributes) ;;
      Acting.for_each users (fun entry =>
        Acting.print Payload
          (fst entry +:+ "," +:+ str_of_nat (List.length (snd entry))))).

(** ["{!s}".format(d.get(key))] *)
Definition get_str (d : gmap string string) (key : string) : string :=
  default "None" (d !! key).

(** ["{!s}@{!s}".format(tokenobj.user.login, tokenobj.user.realm) if
    tokenobj.user else "n/a"] *)
Definition owner_of (tokenobj : tokenobj) : result string :=
  user <- token_user tokenobj ;;
  match user with
  | Some u => Ok (user_login u +:+ "@" +:+ user_realm u)
  | None => Ok "n/a"
  end.

(** The csv branch of [export] (lines 546-561).  [type == "totp"] compares
    the built-in [type] with a string and is false, so the five-column row
    is printed.  The loop returns the local variable [token_dict]. *)
Fixpoint export_csv (b32 : option string) (tlist : list tokenobj)
    (token_dict : option (gmap string string)) : traced (option (gmap string string)) :=
  match tlist with
  | [] => Traced.ret token_dict
  | tokenobj :: rest =>
      if negb (str_in (str_lower (token_tokentype tokenobj)) ["totp"; "hotp"]) then
        export_csv b32 rest token_dict
      else
        d <~ Traced.lift (token_to_dict tokenobj b32) ;;
        owner <~ Traced.lift (owner_of tokenobj) ;;
        Traced.print Payload
          (py_join ", " [owner; get_str d "serial"; get_str d "otpkey";
                         get_str d "type"; get_str d "otplen"]) ;;~
        export_csv b32 rest (Some d)
  end.

(** The loop of the yaml branch (lines 564-571): the handler reads
    [token_dict], which is the value of an earlier round, or unassigned. *)
Fixpoint export_yaml (b32 : option string) (tlist : list tokenobj)
    (token_dict : option (gmap string string)) (token_list : list (gmap string string))
  : traced (option (gmap string string) * list (gmap string string)) :=
  match tlist with
  | [] => Traced.ret (token_dict, token_list)
  | tokenobj :: rest =>
      match token_to_dict tokenobj b32 with
      | Ok d =>
          match owner_of tokenobj with
          | Ok owner =>
              let d' := <[ "owner" := owner ]> d in
              export_yaml b32 rest (Some d') (token_list ++ [d'])%list
          | Raise _ =>
              Traced.stderr_write Diagnostic
                (nl +:+ "Failed to export token " +:+ get_str d "serial" +:+ "." +:+ nl) ;;~
              export_yaml b32 rest (Some d) token_list
          end
      | Raise _ =>
          d <~ Traced.lift
                 (match token_dict with
                  | Some d => Ok d
                  | None => Raise (Exn UnboundLocalError
                              "local variable 'token_dict' referenced before assignment")
                  end) ;;
          Traced.stderr_write Diagnostic
            (nl +:+ "Failed to export token " +:+ get_str d "serial" +:+ "." +:+ nl) ;;~
          export_yaml b32 rest token_dict token_list
      end
  end.

(** The pskc branch (lines 574-579). *)
Definition export_pskc_batch (tlist : list tokenobj) : traced unit :=
  exported <~ Traced.lift (export_pskc tlist) ;;
  let '(key, token_num, soup) := exported in
  Traced.stderr_write Diagnostic (nl +:+ str_of_nat token_num +:+ " tokens exported." +:+ nl) ;;~
  Traced.stderr_write Diagnostic
    (nl +:+ "This is the AES encryption key of the token seeds." +:+ nl
       +:+ "You need this key to import the tokens again:" +:+ nl +:+ nl
       +:+ String (ascii_of_nat 9) key +:+ nl +:+ nl) ;;~
  Traced.print Payload soup.

(** The loop of [export] over the generator, with the local variable
    [token_dict]. *)
Fixpoint export_batches (export_format : string) (b32 : option string)
    (generator : list (list tokenobj)) (token_dict : option (gmap string string))
  : traced unit :=
  match generator with
  | [] => Traced.ret tt
  | tlist :: rest =>
      if str_is export_format "csv" then
        token_dict <~ export_csv b32 tlist token_dict ;;
        export_batches export_format b32 rest token_dict
      else if str_is export_format "yaml" then
        exported <~ export_yaml b32 tlist token_dict [] ;;
        Traced.print Payload (yaml_safe_dump (snd exported)) ;;~
        export_batches export_format b32 rest (fst exported)
      else
        export_pskc_batch tlist ;;~
        export_batches export_format b32 rest token_dict
  end.

(** [export] (lines 541-579) *)
Definition export (export_format : string) (b32 : option string)
    (generator : list (list tokenobj)) : acting store unit :=
  Acting.pure (export_batches export_format b32 generator None).

End Commands.
End Action.

(** ** A concrete library and store, for running the definitions

    Small stand-ins for the imported functions: decimal integers with a sign,
    literal substring search, a date parser that knows a handful of
    timestamps (seconds since the epoch, scaled to microseconds), a local
    zone one hour east of UTC, and a store in which some serials cannot be
    written. *)

Module Demo.

Fixpoint digits_value (s : string) (acc : Z) : option Z :=
  match s with
  | EmptyString => Some acc
  | String c s' =>
      let n := nat_of_ascii c in
      if (Nat.leb 48 n && Nat.leb n 57)%bool
      then digits_value s' (10 * acc + Z.of_nat (n - 48))
      else None
  end.

Definition dec_int (s : string) : option Z :=
  match s with
  | EmptyString => None
  | String "-" (String c r) => Z.opp <$> digits_value (String c r) 0
  | String "+" (String c r) => digits_value (String c r) 0
  | String "-" EmptyString | String "+" EmptyString => None
  | _ => digits_value s 0
  end.

Fixpoint is_prefix (p s : string) : bool :=
  match p, s with
  | EmptyString, _ => true
  | String a p', String b s' => (Ascii.eqb a b && is_prefix p' s')%bool
  | String _ _, EmptyString => false
  end.

Fixpoint contains (p s : string) : bool :=
  (is_prefix p s || match s with
                    | EmptyString => false
                    | String _ s' => contains p s'
                    end)%bool.

Definition second : Z := 1000000.

Definition known_dates (s : string) : option datetime :=
  if String.eqb s "2019-05-01T00:00+0000" then Some (Datetime (1556668800 * second) (Some 0))
  else if String.eqb s "2020-01-01T00:00+0000" then Some (Datetime (1577836800 * second) (Some 0))
  else if String.eqb s "2021-06-01T00:00+0000" then Some (Datetime (1622505600 * second) (Some 0))
  else if String.eqb s "2020-01-01" then Some (Datetime (1577836800 * second) None)
  else None.

Definition parse (utc_if_naive : bool) (v : pyval) : result datetime :=
  match v with
  | VStr s =>
      match known_dates s with
      | Some d =>
          Ok (match tzinfo d with
              | None => if utc_if_naive then Datetime (wall d) (Some 0) else d
              | Some _ => d
              end)
      | None => Raise (Exn ValueError ("Unknown string format: " +:+ s))
      end
  | _ => Raise (Exn TypeError "Parser must be a string or character stream")
  end.

Definition legacy (v : pyval) : result pyval :=
  match v with
  | VStr s => Ok (VStr s)
  | _ => Raise (Exn TypeError "expected a string")
  end.

Definition map_ascii (f : ascii -> ascii) (s : string) : string :=
  string_of_list_ascii (map f (list_ascii_of_string s)).

Definition upper_ascii (c : ascii) : ascii :=
  let n := nat_of_ascii c in
  if (Nat.leb 97 n && Nat.leb n 122)%bool then ascii_of_nat (n - 32) else c.

Definition lower_ascii (c : ascii) : ascii :=
  let n := nat_of_ascii c in
  if (Nat.leb 65 n && Nat.leb n 90)%bool then ascii_of_nat (n + 32) else c.

Fixpoint lstrip (s : string) : string :=
  match s with
  | String c s' => if Re.whitespace c then lstrip s' else s
  | EmptyString => EmptyString
  end.

Definition rev_string (s : string) : string :=
  string_of_list_ascii (rev (list_ascii_of_string s)).

Definition strip (s : string) : string := rev_string (lstrip (rev_string (lstrip s))).

#[export] Instance libraries : Libraries := {|
  int_of_str := dec_int;
  re_search := fun p s => Ok (contains p s);
  parser_parse := parse false;
  parser_parse_tzutc := parse true;
  parse_legacy_time := legacy;
  tzlocal_utcoffset := fun _ => 3600 * second;
  ACTION_LASTAUTH := "last_auth";
  str_upper := map_ascii upper_ascii;
  str_lower := map_ascii lower_ascii;
  str_strip := strip;
  str_is := String.eqb
|}.

(** A store: the token objects it returns, the serials that are disabled,
    the descriptions that were set, and the serials whose rows cannot be
    written. *)
Record store := Store {
  tokens : list tokenobj;
  disabled : list string;
  descriptions : list (string * string);
  locked : list string
}.

Definition write_row (serial : string) (s : store) (change : store -> store)
  : store * result unit :=
  if existsb (String.eqb serial) (locked s)
  then (s, Raise (Exn RuntimeError ("row of " +:+ serial +:+ " is locked")))
  else (change s, Ok tt).

#[export] Instance token_library : TokenLibrary store := {|
  get_tokens := fun s _ _ _ => tokens s;
  enable_token := fun serial enable s =>
    write_row serial s (fun s =>
      Store (tokens s)
            (if enable then List.filter (fun x => negb (String.eqb x serial)) (disabled s)
             else serial :: disabled s)
            (descriptions s) (locked s));
  remove_token := fun serial s =>
    write_row serial s (fun s =>
      Store (List.filter (fun t => negb (String.eqb (token_serial t) serial)) (tokens s))
            (disabled s) (descriptions s) (locked s));
  unassign_token := fun serial s => write_row serial s (fun s => s);
  tokenrealms_split :=
    Raise (Exn AttributeError "'function' object has no attribute 'split'");
  token_set_realms := fun t _ s => write_row (token_serial t) s (fun s => s);
  token_set_description := fun t d s =>
    write_row (token_serial t) s (fun s =>
      Store (tokens s) (disabled s) ((token_serial t, d) :: descriptions s) (locked s));
  token_add_tokeninfo := fun t _ _ s => write_row (token_serial t) s (fun s => s);
  token_del_tokeninfo := fun t _ s => write_row (token_serial t) s (fun s => s);
  token_save := fun t s => write_row (token_serial t) s (fun s => s);
  token_to_dict := fun t _ =>
    Ok (<[ "serial" := token_serial t ]> (<[ "type" := token_tokentype t ]> ∅));
  yaml_safe_dump := fun l => String.concat nl (map (fun d => get_or_empty d "serial") l);
  export_pskc := fun l => Ok ("00", List.length l, "<KeyContainer/>")
|}.

Definition alice : user_obj :=
  User "alice" "1000" "resolver1" "realm1" (Ok {[ "username" := "alice" ]}).

(** Three token objects: [A1] and [A2] are temporary tokens, [B1] is a
    permanent one whose last authentication is recent. *)
Definition A1 : tokenobj :=
  TokenObj "A1" "hotp" "temp-a" {[ "failcount" := VInt 7 ]}
           {[ "last_used" := "2019-05-01T00:00+0000" ]} (fun _ => false) false (Ok (Some alice)).

Definition A2 : tokenobj :=
  TokenObj "A2" "totp" "temp-a" {[ "failcount" := VInt 0 ]} ∅ (fun _ => false) true (Ok None).

Definition B1 : tokenobj :=
  TokenObj "B1" "hotp" "perm-b" ∅ {[ "last_used" := "2021-06-01T00:00+0000" ]}
           (fun _ => true) false (Raise (Exn RuntimeError "resolver unreachable")).

Definition inventory : store := Store [A1; A2; B1] [] [] ["A1"].

(** No filter at all. *)
Definition everything : selection :=
  Selection None None None None [] None [] None None None None None None None.

(** Tokens whose description contains "temp". *)
Definition temporary : selection :=
  Selection None None None None [] None [] None None None (Some "temp") None None None.

(** Tokens not used for a year. *)
Definition stale : selection :=
  Selection (Some "1y") None None None [] None [] None None None None None None None.

Definition filter_of (r : result (list comparator)) : list comparator :=
  match r with
  | Ok l => l
  | Raise _ => []
  end.

(** Tokens whose tokeninfo "last_used" lies before 2020. *)
Definition used_before_2020 : selection :=
  Selection None None None (Some "last_used")
    (filter_of (build_tokenvalue_filter "last_used" None None None None
                  (Some "2020-01-01T00:00+0000")))
    None [] None None None None None None None.

End Demo.


(** The token types the csv export writes rows for (line 547). *)
Definition is_otp_type `{Libraries} (t : tokenobj) : bool :=
  str_in (str_lower (token_tokentype t)) ["totp"; "hotp"].

(** The payload lines among the texts a run wrote. *)
Definition payload_lines (ws : list (stream * kind * string)) : list string :=
  flat_map (fun w => match w with
                     | (Stdout, Payload, text) => [text]
                     | _ => []
                     end) ws.

(** ** The maintenance commands (lines 702-761)

    [updatetokens] and [loadtokens] read a file and hand its content to a
    decoder; what the decoder returns (or raises) is the argument of the
    embedded command.  The calls into the token library that only these two
    commands make are a second interface. *)

(** [key_error k] is the [KeyError] that [del d[k]] raises for a missing
    key; [get_tokens_by_serial s serial] is [get_tokens(serial=serial)];
    [token_update t d] is [t.update(d)]; [import_token] is the library
    function of that name. *)
Class MaintenanceLibrary (store : Type) := {
  key_error : string -> exn;
  get_tokens_by_serial : store -> option string -> list tokenobj;
  token_update : tokenobj -> gmap string string -> store -> store * result unit;
  import_token : string -> gmap string string -> store -> store * result unit
}.

(** ["{0!s}".format(l)] for a list of strings. *)
Definition py_list_str (l : list string) : string :=
  "[" +:+ py_join ", " (map quoted l) +:+ "]".

Module Maintenance.
Section Commands.
Context {store : Type} `{MaintenanceLibrary store}.

(** One round of the loop of [updatetokens] (lines 710-719). *)
Definition update_one (tok : gmap string string) : acting store unit :=
  match tok !! "owner" with
  | None => Acting.raise (key_error "owner")
  | Some _ =>
      let tok := base.delete "owner" tok in
      tok_objects <:- (fun s => (s, Traced.ret (get_tokens_by_serial s (tok !! "serial")))) ;;
      match tok_objects with
      | [] =>
          Acting.stderr_write Diagnostic
            (nl +:+ "Can not find token " +:+ Action.get_str tok "serial"
               +:+ ". Not updating." +:+ nl)
      | first :: _ =>
          Acting.print Progress ("Updating token " +:+ Action.get_str tok "serial" +:+ ".") ;;:
          Acting.try_exception (Acting.call (token_update first tok))
            (fun _ =>
               Acting.stderr_write Diagnostic
                 (nl +:+ "Failed to update token " +:+ Action.get_str tok "serial" +:+ "."))
      end
  end.

(** [updatetokens] (lines 702-719); [loaded] is what
    [yaml_safe_load(open(yaml, 'r').read())] evaluates to. *)
Definition updatetokens (loaded : result (list (gmap string string))) : acting store unit :=
  Acting.print Progress "Loading YAML data. This may take a while." ;;:
  token_list <:- Acting.pure (Traced.lift loaded) ;;
  Acting.for_each token_list update_one.

(** The loop of [loadtokens] (lines 747-755) over the items of the
    dictionary [tokens], with the counters and the list of failures. *)
Fixpoint import_loop (tokens : list (string * gmap string string))
    (success failed : nat) (failed_tokens : list string)
  : acting store (nat * nat * list string) :=
  match tokens with
  | [] => Acting.ret (success, failed, failed_tokens)
  | (serial, data) :: rest =>
      counted <:- Acting.try_exception
                    (Acting.print Progress ("Importing token " +:+ serial) ;;:
                     Acting.call (import_token serial data) ;;:
                     Acting.ret (S success, failed, failed_tokens))
                    (fun e =>
                       Acting.print Diagnostic
                         ("--- Failed to import token. " +:+ exn_msg e) ;;:
                       Acting.ret (success, S failed, failed_tokens ++ [serial])) ;;
      import_loop rest (fst (fst counted)) (snd (fst counted)) (snd counted)
  end.

(** [loadtokens] (lines 732-761); [parsed] is what [parsePSKCdata] returns
    for the content of the file: the dictionary of tokens, in its order, and
    the serials that could not be validated. *)
Definition loadtokens
    (parsed : result (list (string * gmap string string) * list string))
  : acting store unit :=
  p <:- Acting.pure (Traced.lift parsed) ;;
  let tokens := fst p in
  let not_parsed_tokens := snd p in
  counted <:- import_loop tokens 0 0 [] ;;
  let success := fst (fst counted) in
  let failed := snd (fst counted) in
  let failed_tokens := snd counted in
  Acting.when (nonempty not_parsed_tokens)
    (Acting.print Diagnostic
       ("The following tokens were not read from the PSKC file"
          +:+ " because they could not be validated: " +:+ py_list_str not_parsed_tokens)) ;;:
  Acting.print Progress ("Successfully imported " +:+ str_of_nat success +:+ " tokens.") ;;:
  Acting.print Progress
    ("Failed to import " +:+ str_of_nat failed +:+ " tokens: " +:+ py_list_str failed_tokens).

End Commands.
End Maintenance.

(** The maintenance library on the demo store. *)
Module DemoMaintenance.

#[export] Instance maintenance_library : MaintenanceLibrary Demo.store := {|
  key_error := fun k => Exn RuntimeError ("KeyError: " +:+ quoted k);
  get_tokens_by_serial := fun s serial =>
    match serial with
    | Some x => List.filter (fun t => String.eqb (token_serial t) x) (Demo.tokens s)
    | None => Demo.tokens s
    end;
  token_update := fun t d s =>
    Demo.write_row (token_serial t) s (fun s =>
      Demo.Store (Demo.tokens s) (Demo.disabled s)
        ((token_serial t, get_or_empty d "description") :: Demo.descriptions s)
        (Demo.locked s));
  import_token := fun serial d s =>
    Demo.write_row serial s (fun s =>
      Demo.Store
        (Demo.tokens s ++
           [TokenObj serial (get_or_empty d "type") "" ∅ ∅ (fun _ => false) false (Ok None)])
        (Demo.disabled s) (Demo.descriptions s) (Demo.locked s))
|}.

(** A second store, the list of disabled serials, on which every state
    change succeeds and only HOTP and TOTP tokens can be serialised. *)
#[export] Instance open_library : TokenLibrary (list string) := {|
  get_tokens := fun _ _ _ _ => [Demo.A1; Demo.A2; Demo.B1];
  enable_token := fun serial enable s =>
    (if enable then List.filter (fun x => negb (String.eqb x serial)) s else serial :: s,
     Ok tt);
  remove_token := fun _ s => (s, Ok tt);
  unassign_token := fun _ s => (s, Ok tt);
  tokenrealms_split :=
    Raise (Exn AttributeError "'function' object has no attribute 'split'");
  token_set_realms := fun _ _ s => (s, Ok tt);
  token_set_description := fun _ _ s => (s, Ok tt);
  token_add_tokeninfo := fun _ _ _ s => (s, Ok tt);
  token_del_tokeninfo := fun _ _ s => (s, Ok tt);
  token_save := fun _ s => (s, Ok tt);
  token_to_dict := fun t _ =>
    if @is_otp_type Demo.libraries t
    then Ok (<[ "serial" := token_serial t ]> ∅)
    else Raise (Exn RuntimeError ("cannot serialise " +:+ token_serial t));
  yaml_safe_dump := fun l => String.concat nl (map (fun d => get_or_empty d "serial") l);
  export_pskc := fun l => Ok ("00", List.length l, "<KeyContainer/>")
|}.

(** A registration token, which is neither HOTP nor TOTP. *)
Definition R1 : tokenobj :=
  TokenObj "R1" "registration" "" ∅ ∅ (fun _ => false) false (Ok None).

(** Tokens whose column "failcount" equals the text "abc". *)
Definition failcount_is_abc : selection :=
  Selection None None None None [] (Some "failcount")
    (Demo.filter_of
       (@build_tokenvalue_filter Demo.libraries "failcount" (Some "abc") None None None None))
    None None None None None None None.



End DemoMaintenance.


(** * Properties *)

(** ** Comparators *)

Section ComparatorFacts.
Context `{Libraries}.

(** [int] on a stored value fails with [ValueError] only. *)
Lemma py_int_raises_value_error (x : pyval) (e : exn) :
  py_int x = Raise e -> exn_cls e = ValueError.
Proof.
  destruct x as [b|n|s]; simpl; try discriminate.
  destruct (int_of_str s); [discriminate|].
  intros [= <-]. reflexivity.
Qed.

Lemma try_convert_to_integer_ok (v : string) (n : Z) :
  _try_convert_to_integer v = Ok n <-> py_int (VStr v) = Ok n.
Proof.
  unfold _try_convert_to_integer. simpl.
  destruct (int_of_str v); simpl; split; congruence.
Qed.

(** What a numeric comparator with coerced operand [n] answers. *)
Lemma numeric_eval (rel : Z -> Z -> bool) (n : Z) (x : pyval) :
  try_except (m <- py_int x ;; Ok (rel m n)) ValueError (fun _ => Ok false)
  = Ok (match py_int x with Ok m => rel m n | Raise _ => false end).
Proof.
  destruct (py_int x) as [m|e] eqn:E; simpl; [reflexivity|].
  rewrite (py_int_raises_value_error _ _ E). reflexivity.
Qed.

(** A successfully converted operand is zone-aware. *)
Lemma converted_operand_aware (operand : string) (given : datetime) :
  _try_convert_to_datetime operand = Ok given -> is_Some (tzinfo given).
Proof.
  unfold _try_convert_to_datetime.
  destruct (parser_parse (VStr operand)) as [parsed|e]; simpl.
  - destruct (tzinfo parsed) as [off|] eqn:E; simpl; intros [= <-]; simpl; eauto.
  - destruct (exn_class_eqb (exn_cls e) ValueError); discriminate.
Qed.

Lemma compare_after_inv key operand c :
  _compare_after key operand = Ok c ->
  exists given, _try_convert_to_datetime operand = Ok given /\
    c = (fun value =>
           try_except (d <- _parse_datetime key value ;; datetime_gt d given)
             ValueError (fun _ => Ok false)).
Proof.
  unfold _compare_after.
  destruct (_try_convert_to_datetime operand) as [given|e]; simpl; [|discriminate].
  intros [= <-]. eauto.
Qed.

Lemma compare_before_inv key operand c :
  _compare_before key operand = Ok c ->
  exists given, _try_convert_to_datetime operand = Ok given /\
    c = (fun value =>
           try_except (d <- _parse_datetime key value ;; datetime_lt d given)
             ValueError (fun _ => Ok false)).
Proof.
  unfold _compare_before.
  destruct (_try_convert_to_datetime operand) as [given|e]; simpl; [|discriminate].
  intros [= <-]. eauto.
Qed.

Lemma datetime_cmp_aware rel (d given : datetime) :
  is_Some (tzinfo d) -> is_Some (tzinfo given) ->
  datetime_cmp rel d given = Ok (rel (instant d) (instant given)).
Proof.
  intros [a Ha] [b Hb]. unfold datetime_cmp. rewrite Ha, Hb. reflexivity.
Qed.

(** C4. For an operand [v] that parses as the integer [n], the GT
    comparator built from [v] answers [int(x) > n] on every field value
    [x] that [int] accepts and [false], without raising, on every other
    one; the LT comparator likewise with [<]. *)
Theorem numeric_comparators_compare_integers (key v : string) (n : Z) :
  py_int (VStr v) = Ok n ->
  exists gt lt,
    _compare_greater_than key v = Ok gt /\
    _compare_less_than key v = Ok lt /\
    forall x : pyval,
      match py_int x with
      | Ok m => gt x = Ok (m >? n) /\ lt x = Ok (m <? n)
      | Raise _ => gt x = Ok false /\ lt x = Ok false
      end.
Proof.
  intros Hn. apply try_convert_to_integer_ok in Hn.
  unfold _compare_greater_than, _compare_less_than. rewrite Hn. simpl.
  eexists _, _. split; [reflexivity|]. split; [reflexivity|].
  intros x. rewrite (numeric_eval Z.gtb), (numeric_eval Z.ltb).
  destruct (py_int x); split; reflexivity.
Qed.

(** C7. With one operand given to AFTER and to BEFORE, on a field value
    that parses to a definite (zone-aware) instant both comparators return,
    both answer [false] when that instant is the operand's, and exactly one
    answers [true] otherwise. *)
Theorem after_before_exclusive (key operand : string) (after before : comparator)
    (x : pyval) (d : datetime) :
  _compare_after key operand = Ok after ->
  _compare_before key operand = Ok before ->
  _parse_datetime key x = Ok d ->
  is_Some (tzinfo d) ->
  exists (given : datetime) (a b : bool),
    _try_convert_to_datetime operand = Ok given /\
    after x = Ok a /\ before x = Ok b /\
    (instant d = instant given -> a = false /\ b = false) /\
    (instant d <> instant given -> xorb a b = true).
Proof.
  intros Ha Hb Hd Haware.
  apply compare_after_inv in Ha as (given & Hg & ->).
  apply compare_before_inv in Hb as (given' & Hg' & ->).
  rewrite Hg in Hg'. injection Hg' as <-.
  pose proof (converted_operand_aware _ _ Hg) as Hgiven.
  exists given, (instant d >? instant given), (instant d <? instant given).
  rewrite Hd. simpl. unfold datetime_gt, datetime_lt.
  rewrite !datetime_cmp_aware by assumption. simpl.
  split; [exact Hg|]. split; [reflexivity|]. split; [reflexivity|]. split.
  - intros ->. rewrite Z.gtb_ltb, Z.ltb_irrefl. split; reflexivity.
  - intros Hne. rewrite Z.gtb_ltb.
    destruct (Z.ltb_spec (instant given) (instant d)),
             (Z.ltb_spec (instant d) (instant given)); simpl; trivial; lia.
Qed.

(** What a date comparator answers once the stored value went through
    [_parse_datetime]: the comparison with the zone-aware operand is by
    instant on a zone-aware value and is the [TypeError] of Python on a
    zone-less one; of the errors of the parser, [except ValueError] turns
    [ValueError] into [false] and lets every other one through. *)
Lemma temporal_eval (rel : Z -> Z -> bool) (parsed : result datetime) (given : datetime) :
  is_Some (tzinfo given) ->
  try_except (d <- parsed ;; datetime_cmp rel d given) ValueError (fun _ => Ok false)
  = match parsed with
    | Ok d =>
        match tzinfo d with
        | Some _ => Ok (rel (instant d) (instant given))
        | None => Raise mixed_compare
        end
    | Raise e => if exn_class_eqb (exn_cls e) ValueError then Ok false else Raise e
    end.
Proof.
  intros [off Hoff]. destruct parsed as [d|e]; simpl; [|reflexivity].
  unfold datetime_cmp. rewrite Hoff. destruct (tzinfo d); reflexivity.
Qed.

(** C3, as the code has it, for every comparator that was constructed and
    every stored value, without a proviso on the libraries.

    A GT or LT comparator exists only for an operand that was coerced to an
    integer at construction; applied to a stored value it returns a boolean,
    the comparison of [int(value)] with that integer, which is [false] when
    the value cannot be coerced.

    An AFTER or BEFORE comparator exists only for an operand that was
    coerced at construction, to a zone-aware datetime, and coerces nothing of
    the operand when it is applied.  What it answers is fixed by what
    [_parse_datetime] does on the stored value: [false] when the parser
    raises [ValueError]; the comparison of the instants when the value
    parses to a zone-aware datetime; but any other error of the parser is
    raised by the comparator, and a value that parses to a zone-less
    datetime raises the [TypeError] of the comparison.

    An EQ comparator is always constructed: on a string it is the
    regular-expression search for the operand, and on an integer or boolean
    it coerces the operand when it is applied, so that it returns exactly
    when the operand is an integer. *)
Theorem comparators_at_evaluation (op : comparison) (key operand : string)
    (c : comparator) (v : pyval) :
  make_comparator op key operand = Ok c ->
  match op with
  | EQ =>
      match v with
      | VStr s => c v = re_search operand s
      | VInt _ | VBool _ => is_ok (c v) = is_ok (_try_convert_to_integer operand)
      end
  | GT =>
      operand_coercible op operand = true /\
      exists (given : Z) (b : bool),
        _try_convert_to_integer operand = Ok given /\
        c v = Ok b /\
        b = match py_int v with Ok n => n >? given | Raise _ => false end /\
        (field_coercible op key v = false -> b = false)
  | LT =>
      operand_coercible op operand = true /\
      exists (given : Z) (b : bool),
        _try_convert_to_integer operand = Ok given /\
        c v = Ok b /\
        b = match py_int v with Ok n => n <? given | Raise _ => false end /\
        (field_coercible op key v = false -> b = false)
  | AFTER =>
      operand_coercible op operand = true /\
      exists given : datetime,
        _try_convert_to_datetime operand = Ok given /\
        is_Some (tzinfo given) /\
        c v = match _parse_datetime key v with
              | Ok d =>
                  match tzinfo d with
                  | Some _ => Ok (instant d >? instant given)
                  | None => Raise mixed_compare
                  end
              | Raise e =>
                  if exn_class_eqb (exn_cls e) ValueError then Ok false else Raise e
              end
  | BEFORE =>
      operand_coercible op operand = true /\
      exists given : datetime,
        _try_convert_to_datetime operand = Ok given /\
        is_Some (tzinfo given) /\
        c v = match _parse_datetime key v with
              | Ok d =>
                  match tzinfo d with
                  | Some _ => Ok (instant d <? instant given)
                  | None => Raise mixed_compare
                  end
              | Raise e =>
                  if exn_class_eqb (exn_cls e) ValueError then Ok false else Raise e
              end
  end.
Proof.
  intros Hc. destruct op; simpl in *.
  - injection Hc as <-.
    destruct v as [b|n|s]; [| |reflexivity];
      destruct (_try_convert_to_integer operand); reflexivity.
  - unfold _compare_greater_than in Hc.
    destruct (_try_convert_to_integer operand) as [n|e]; simpl in Hc; [|discriminate].
    injection Hc as <-. split; [reflexivity|].
    rewrite (numeric_eval Z.gtb). exists n. eexists.
    split; [reflexivity|]. split; [reflexivity|]. split; [reflexivity|].
    destruct (py_int v); [discriminate|reflexivity].
  - unfold _compare_less_than in Hc.
    destruct (_try_convert_to_integer operand) as [n|e]; simpl in Hc; [|discriminate].
    injection Hc as <-. split; [reflexivity|].
    rewrite (numeric_eval Z.ltb). exists n. eexists.
    split; [reflexivity|]. split; [reflexivity|]. split; [reflexivity|].
    destruct (py_int v); [discriminate|reflexivity].
  - apply compare_after_inv in Hc as (given & Hg & ->).
    pose proof (converted_operand_aware _ _ Hg) as Hgiven.
    split; [rewrite Hg; reflexivity|].
    exists given. split; [exact Hg|]. split; [exact Hgiven|].
    exact (temporal_eval Z.gtb (_parse_datetime key v) given Hgiven).
  - apply compare_before_inv in Hc as (given & Hg & ->).
    pose proof (converted_operand_aware _ _ Hg) as Hgiven.
    split; [rewrite Hg; reflexivity|].
    exists given. split; [exact Hg|]. split; [exact Hgiven|].
    exact (temporal_eval Z.ltb (_parse_datetime key v) given Hgiven).
Qed.

End ComparatorFacts.

(** C4 on the demo library: the operand "5" and the comparators built from
    it. *)
Lemma numeric_comparators_witness :
  @py_int Demo.libraries (VStr "5") = Ok 5 /\
  exists gt lt,
    @_compare_greater_than Demo.libraries "failcount" "5" = Ok gt /\
    @_compare_less_than Demo.libraries "failcount" "5" = Ok lt /\
    forall x : pyval,
      match @py_int Demo.libraries x with
      | Ok m => gt x = Ok (m >? 5) /\ lt x = Ok (m <? 5)
      | Raise _ => gt x = Ok false /\ lt x = Ok false
      end.
Proof.
  split; [reflexivity|].
  apply (@numeric_comparators_compare_integers Demo.libraries "failcount" "5" 5).
  reflexivity.
Defined.

(** C7 on the demo library: the operand 2020-01-01 and a value of June 2021. *)
Lemma after_before_witness :
  exists (given : datetime) (a b : bool),
    @_try_convert_to_datetime Demo.libraries "2020-01-01" = Ok given /\
    (fun value => try_except
       (d <- @_parse_datetime Demo.libraries "last_used" value ;; datetime_gt d
          (Datetime (1577836800 * Demo.second) (Some (3600 * Demo.second))))
       ValueError (fun _ => Ok false)) (VStr "2021-06-01T00:00+0000") = Ok a /\
    (fun value => try_except
       (d <- @_parse_datetime Demo.libraries "last_used" value ;; datetime_lt d
          (Datetime (1577836800 * Demo.second) (Some (3600 * Demo.second))))
       ValueError (fun _ => Ok false)) (VStr "2021-06-01T00:00+0000") = Ok b /\
    (instant (Datetime (1622505600 * Demo.second) (Some 0)) = instant given ->
     a = false /\ b = false) /\
    (instant (Datetime (1622505600 * Demo.second) (Some 0)) <> instant given ->
     xorb a b = true).
Proof.
  apply (@after_before_exclusive Demo.libraries "last_used" "2020-01-01" _ _
           (VStr "2021-06-01T00:00+0000") (Datetime (1622505600 * Demo.second) (Some 0))).
  - reflexivity.
  - reflexivity.
  - reflexivity.
  - simpl. eauto.
Defined.

(** C3: comparators that were constructed raise when they are applied.
    An EQ comparator is constructed for the operand "abc", and raises the
    user-input error when it meets the integer column value 7.  An AFTER
    comparator is constructed for the operand 2020-01-01 on the column
    "failcount"; applied to the integer column value 7 it raises the
    [TypeError] of the parser, which [except ValueError] does not catch.
    AFTER and BEFORE comparators are constructed for the same operand on the
    tokeninfo key "last_used"; applied to the stored text "2020-01-01", which
    parses to a datetime without a zone, they raise the [TypeError] of
    comparing that datetime with the zone-aware operand. *)
Lemma comparators_raise_at_evaluation :
  (exists c : comparator,
     @make_comparator Demo.libraries EQ "failcount" "abc" = Ok c /\
     c (VInt 7) = Raise (Exn ClickException "Not an integer: abc")) /\
  (exists c : comparator,
     @make_comparator Demo.libraries AFTER "failcount" "2020-01-01" = Ok c /\
     c (VInt 7) = Raise (Exn TypeError "expected a string")) /\
  (exists c : comparator,
     @make_comparator Demo.libraries AFTER "last_used" "2020-01-01" = Ok c /\
     c (VStr "2020-01-01") = Raise mixed_compare) /\
  (exists c : comparator,
     @make_comparator Demo.libraries BEFORE "last_used" "2020-01-01" = Ok c /\
     c (VStr "2020-01-01") = Raise mixed_compare).
Proof.
  split; [|split; [|split]]; eexists; split; reflexivity.
Qed.

(** C3, as the code has it, on the demo library: AFTER 2020-01-01 applied to a value of
    June 2021. *)
Lemma comparators_at_evaluation_witness :
  @operand_coercible Demo.libraries AFTER "2020-01-01" = true /\
  exists given : datetime,
    @_try_convert_to_datetime Demo.libraries "2020-01-01" = Ok given /\
    is_Some (tzinfo given) /\
    (fun value => try_except
       (d <- @_parse_datetime Demo.libraries "last_used" value ;; datetime_gt d
          (Datetime (1577836800 * Demo.second) (Some (3600 * Demo.second))))
       ValueError (fun _ => Ok false)) (VStr "2021-06-01T00:00+0000")
    = match @_parse_datetime Demo.libraries "last_used" (VStr "2021-06-01T00:00+0000") with
      | Ok d =>
          match tzinfo d with
          | Some _ => Ok (instant d >? instant given)
          | None => Raise mixed_compare
          end
      | Raise e =>
          if exn_class_eqb (exn_cls e) ValueError then Ok false else Raise e
      end.
Proof.
  apply (@comparators_at_evaluation Demo.libraries AFTER "last_used" "2020-01-01" _
           (VStr "2021-06-01T00:00+0000")).
  reflexivity.
Defined.

(** What the comparator of the witness and its zone-less and malformed
    siblings answer: the value of June 2021 lies after the operand, a text
    the parser rejects with [ValueError] gives [false]. *)
Example after_comparator_run :
  exists c : comparator,
    @make_comparator Demo.libraries AFTER "last_used" "2020-01-01" = Ok c /\
    c (VStr "2021-06-01T00:00+0000") = Ok true /\
    c (VStr "2019-05-01T00:00+0000") = Ok false /\
    c (VStr "yesterday") = Ok false.
Proof.
  eexists. repeat split; reflexivity.
Qed.

(** ** The criterion parser of [find] *)

Module ReFacts.
Import Re.

Lemma consume_groups c m m' :
  consume c m = Some m' -> exists m0, m = Some m0 /\ groups m' = groups m0.
Proof.
  destruct m as [[w g]|]; simpl; [|discriminate].
  intros [= <-]. eauto.
Qed.

(** Repetition adds no group of its own. *)
Lemma star_then_groups p k s m (n : nat) :
  (forall s' m', k s' = Some m' -> List.length (groups m') = n) ->
  star_then p k s = Some m -> List.length (groups m) = n.
Proof.
  intros Hk. revert m. induction s as [|c s IH]; simpl; intros m.
  - apply Hk.
  - destruct (p c); [|apply Hk].
    destruct (consume c (star_then p k s)) as [m1|] eqn:E.
    + intros [= <-]. apply consume_groups in E as (m0 & E0 & ->). eauto.
    + apply Hk.
Qed.

(** A match has one captured text per group of the pattern. *)
Lemma match_here_groups r :
  forall s m, match_here r s = Some m -> List.length (groups m) = count_groups r.
Proof.
  induction r as [|a r IH]; simpl; intros s m.
  - intros [= <-]. reflexivity.
  - destruct a as [p|p|p|]; unfold count_groups; simpl; fold (count_groups r).
    + destruct s as [|c s]; [discriminate|]. destruct (p c); [|discriminate].
      intros E. apply consume_groups in E as (m0 & E0 & ->). eauto.
    + apply star_then_groups. exact IH.
    + destruct s as [|c s]; [discriminate|]. destruct (p c); [|discriminate].
      destruct (match_here r s) as [[w g]|] eqn:E; simpl; [|discriminate].
      intros [= <-]. simpl. f_equal. apply (IH _ _ E).
    + destruct (at_end s); [apply IH|discriminate].
Qed.

(** The pattern of [find] has one group, so [m.group(2)] is an
    [IndexError] on every match. *)
Lemma criterion_group_2 s m :
  match_here criterion_pattern s = Some m ->
  group (Some m) 2 = Raise (Exn IndexError "no such group") /\
  exists op, group (Some m) 1 = Ok op.
Proof.
  intros E. apply match_here_groups in E. destruct m as [w g].
  change (count_groups criterion_pattern) with 1%nat in E. simpl in E.
  destruct g as [|op [|? ?]]; try discriminate. simpl. eauto.
Qed.

End ReFacts.

Section CriterionFacts.
Context `{Libraries}.

(** No text makes the tokeninfo branch of [find] assign all the variables
    that the call of [build_tokenvalue_filter] reads: the parsing raises for
    every argument. *)
Lemma find_criteria_always_raises (tokeninfo tokenattribute : option string) :
  exists e, find_criteria tokeninfo tokenattribute = Raise e.
Proof.
  unfold find_criteria, tokeninfo_criterion.
  destruct tokeninfo as [text|]; cbn [Re.re_match bind]; [|eauto].
  destruct (Re.match_here criterion_pattern text) as [m|] eqn:E; [|cbn; eauto].
  destruct (ReFacts.criterion_group_2 _ _ E) as (H2 & op & H1).
  change (Re.group (Some m) 0) with (Ok (Re.whole m)).
  cbn [bind]. rewrite !H1, !H2. cbn [bind].
  destruct (String.eqb op "=="); cbn [bind]; [eauto|].
  destruct (String.eqb op ">="), (String.eqb op "<="); cbn; eauto.
Qed.

(** C1. The expression "aB1 >= 5", whose field has the very shape the
    pattern asks for, is not compiled to any comparator: the pattern leaves
    no room for a value, [re.match] returns [None], and [find] raises. *)
Theorem find_rejects_field_op_value (tokenattribute : option string) :
  find_criteria (Some "aB1 >= 5") tokenattribute
  = Raise (Exn AttributeError "'NoneType' object has no attribute 'group'").
Proof. reflexivity. Qed.

(** The longest text the pattern accepts ends with its one-character
    operator; no branch assigns a variable and the call that builds the
    filter reads an unassigned one. *)
Lemma find_rejects_field_op (tokenattribute : option string) :
  find_criteria (Some "aB1 >") tokenattribute
  = Raise (Exn UnboundLocalError
             "local variable 'tokeninfo_value' referenced before assignment").
Proof. reflexivity. Qed.

End CriterionFacts.

(** ** The selector *)

Section SelectorFacts.
Context `{Libraries} {store : Type} `{TokenLibrary store}.

Lemma verdicts_app l1 l2 : verdicts (l1 ++ l2) = verdicts l1 ++ verdicts l2.
Proof. apply flat_map_app. Qed.

Lemma calls_app l1 l2 : calls (l1 ++ l2) = calls l1 ++ calls l2.
Proof. apply flat_map_app. Qed.

Lemma yields_app l1 l2 : yields (l1 ++ l2) = yields l1 ++ yields l2.
Proof. apply flat_map_app. Qed.

Lemma writes_app l1 l2 : writes (l1 ++ l2) = writes l1 ++ writes l2.
Proof. apply flat_map_app. Qed.

(** *** What the conditions of the checks leave in the trace *)

Lemma condition_of_ret st b : condition_of st (Traced.ret b).
Proof. constructor. Qed.

Lemma condition_of_lift st r : condition_of st (Traced.lift r).
Proof. constructor. Qed.

Lemma condition_of_all_comparators st fs v :
  forall i, condition_of st (all_comparators st i fs v).
Proof.
  induction fs as [|f fs IH]; intros i; simpl.
  - constructor.
  - unfold condition_of. destruct (f v) as [[|]|e]; simpl.
    + specialize (IH (S i)). unfold condition_of in IH.
      destruct (all_comparators st (S i) fs v) as [log r]. simpl in *.
      constructor; eauto.
    + repeat constructor. eauto.
    + repeat constructor. eauto.
Qed.

Lemma condition_of_value_filter st fs value : condition_of st (value_filter st fs value).
Proof.
  destruct value; simpl; [apply condition_of_all_comparators|constructor].
Qed.

Lemma condition_verdicts st m : condition_of st m -> verdicts (fst m) = [].
Proof.
  unfold condition_of. induction 1 as [|e l [i ->] _ IH]; simpl; [reflexivity|exact IH].
Qed.

Lemma condition_calls st m st' i :
  condition_of st m -> In (st', i) (calls (fst m)) -> st' = st.
Proof.
  unfold condition_of. induction 1 as [|e l [j ->] _ IH]; simpl; [tauto|].
  intros [[= <- _]|Hin]; [reflexivity|auto].
Qed.

Lemma condition_yields st m : condition_of st m -> yields (fst m) = [].
Proof.
  unfold condition_of. induction 1 as [|e l [i ->] _ IH]; simpl; [reflexivity|exact IH].
Qed.

Lemma condition_writes st m : condition_of st m -> writes (fst m) = [].
Proof.
  unfold condition_of. induction 1 as [|e l [i ->] _ IH]; simpl; [reflexivity|exact IH].
Qed.

(** *** The order of the checks and the short circuit *)

Lemma staged_ret_true lo : staged lo (Traced.ret true).
Proof. repeat split; constructor. Qed.

Lemma staged_weaken lo lo' m : (lo <= lo')%nat -> staged lo' m -> staged lo m.
Proof.
  intros Hle (Hs & Hlo & Hr). repeat split; trivial.
  eapply Forall_impl; [exact Hlo|]. simpl. intros; lia.
Qed.

Lemma in_stage_order_cons st b vs :
  in_stage_order vs ->
  Forall (fun v => (S (stage_rank st) <= stage_rank (fst v))%nat) vs ->
  in_stage_order ((st, b) :: vs).
Proof.
  intros Hs Hlo. unfold in_stage_order. simpl. constructor; [exact Hs|].
  apply Forall_map. eapply Forall_impl; [exact Hlo|]. simpl. intros; lia.
Qed.

Lemma staged_stage_check st guard passes rest :
  condition_of st passes ->
  staged (S (stage_rank st)) rest ->
  staged (stage_rank st) (stage_check st guard passes rest).
Proof.
  intros Hc Hrest. unfold stage_check.
  destruct guard; [|eapply staged_weaken; [|exact Hrest]; lia].
  pose proof (condition_verdicts _ _ Hc) as Hv.
  destruct passes as [log [ok|e]]; simpl in *.
  - destruct ok.
    + destruct rest as [log' r]. destruct Hrest as (Hs & Hlo & Hr). simpl in *.
      unfold staged. simpl.
      rewrite !verdicts_app, Hv. simpl.
      split; [apply in_stage_order_cons; assumption|].
      split.
      * constructor; [simpl; lia|].
        eapply Forall_impl; [exact Hlo|]. simpl. intros; lia.
      * destruct r as [[|]|e].
        -- constructor; [reflexivity|exact Hr].
        -- destruct Hr as (pre & st' & -> & Hpre).
           exists ((st, true) :: pre), st'. split; [reflexivity|].
           constructor; [reflexivity|exact Hpre].
        -- constructor; [reflexivity|exact Hr].
    + unfold staged. simpl. rewrite !verdicts_app, Hv. simpl.
      split; [apply in_stage_order_cons; constructor|].
      split; [repeat constructor|].
      exists [], st. split; [reflexivity|constructor].
  - unfold staged. simpl. rewrite Hv. repeat split; constructor.
Qed.

Lemma check_token_staged o t : staged 0 (check_token o t).
Proof.
  unfold check_token.
  repeat (first
    [ apply staged_ret_true
    | apply (staged_stage_check Recency)
    | apply (staged_stage_check SerialPattern)
    | apply (staged_stage_check DescriptionPattern)
    | apply (staged_stage_check KeyAbsence)
    | apply (staged_stage_check KeyPresence)
    | apply (staged_stage_check TokeninfoValue)
    | apply (staged_stage_check AttributeValue)
    | apply (staged_stage_check OrphanRequired)
    | apply (staged_stage_check OrphanForbidden)
    | apply condition_of_ret
    | apply condition_of_lift
    | apply condition_of_value_filter ]).
Qed.


Lemma stops_stage_check st guard passes rest :
  stops_at_failure rest -> stops_at_failure (stage_check st guard passes rest).
Proof.
  unfold stops_at_failure, stage_check. intros Hrest.
  destruct guard; [|exact Hrest].
  destruct passes as [log [ok|e]]; simpl; [|discriminate].
  destruct ok.
  - destruct rest as [log' r]. simpl in *. intros Hr.
    destruct (Hrest Hr) as (l & st' & ->).
    exists (log ++ Checked st true :: l), st'.
    rewrite <- app_assoc. reflexivity.
  - intros _. exists log, st. reflexivity.
Qed.

Lemma check_token_stops_at_failure o t : stops_at_failure (check_token o t).
Proof.
  unfold check_token. repeat apply stops_stage_check. discriminate.
Qed.

(** *** The matched subset of a batch *)

Lemma select_is_filter o batch :
  forall kept, select o batch = Ok kept -> kept = List.filter (matches o) batch.
Proof.
  induction batch as [|t batch IH]; simpl; intros kept.
  - intros [= <-]. reflexivity.
  - unfold matches at 1.
    destruct (snd (check_token o t)) as [b|e]; simpl; [|discriminate].
    destruct (select o batch) as [kept'|e]; simpl; [|discriminate].
    intros [= <-]. rewrite (IH kept' eq_refl). destruct b; reflexivity.
Qed.

Lemma filter_sublist {A} (f : A -> bool) (l : list A) : List.filter f l `sublist_of` l.
Proof.
  induction l as [|x l IH]; simpl; [constructor|].
  destruct (f x); [apply sublist_skip|apply sublist_cons]; exact IH.
Qed.


(** *** A check writes nothing and yields nothing *)

Lemma condition_probes st m : condition_of st m -> Forall is_probe (fst m).
Proof.
  unfold condition_of. intros Hc. eapply Forall_impl; [exact Hc|].
  intros e [i ->]. exact I.
Qed.

Lemma probes_stage_check st guard passes rest :
  condition_of st passes ->
  Forall is_probe (fst rest) ->
  Forall is_probe (fst (stage_check st guard passes rest)).
Proof.
  intros Hc Hrest. unfold stage_check. destruct guard; [|exact Hrest].
  apply condition_probes in Hc.
  destruct passes as [log [ok|e]]; simpl in *; [|exact Hc].
  destruct ok.
  - destruct rest as [log' r]. simpl in *.
    apply Forall_app. split; [exact Hc|]. constructor; [exact I|exact Hrest].
  - simpl. apply Forall_app. split; [exact Hc|]. repeat constructor.
Qed.

Lemma check_token_probes o t : Forall is_probe (fst (check_token o t)).
Proof.
  unfold check_token.
  repeat (first
    [ apply probes_stage_check
    | apply condition_of_ret
    | apply condition_of_lift
    | apply condition_of_value_filter ]).
  constructor.
Qed.

Lemma probes_no_yield log : Forall is_probe log -> yields log = [].
Proof.
  induction 1 as [|e l He _ IH]; [reflexivity|].
  destruct e; simpl in *; try contradiction; exact IH.
Qed.

Lemma probes_no_write log : Forall is_probe log -> writes log = [].
Proof.
  induction 1 as [|e l He _ IH]; [reflexivity|].
  destruct e; simpl in *; try contradiction; exact IH.
Qed.

(** *** The loops *)

Lemma traced_bind_fst {A B} (m : traced A) (f : A -> traced B) :
  fst (Traced.bind m f)
  = match snd m with
    | Ok a => fst m ++ fst (f a)
    | Raise _ => fst m
    end.
Proof. destruct m as [log [a|e]]; simpl; [destruct (f a)|]; reflexivity. Qed.

Lemma traced_bind_snd {A B} (m : traced A) (f : A -> traced B) :
  snd (Traced.bind m f)
  = match snd m with
    | Ok a => snd (f a)
    | Raise e => Raise e
    end.
Proof. destruct m as [log [a|e]]; simpl; [destruct (f a)|]; reflexivity. Qed.

Lemma scan_tokens_cons o t batch n m acc :
  scan_tokens o (t :: batch) n m acc
  = (Traced.stderr_write Progress (progress_line n m cr) ;;~
     matched <~ check_token o t ;;
     if matched then scan_tokens o batch (S n) (S m) (acc ++ [t])
     else scan_tokens o batch (S n) m acc).
Proof. reflexivity. Qed.

Lemma scan_tokens_result o batch :
  forall n m acc,
    snd (scan_tokens o batch n m acc)
    = (kept <- select o batch ;;
       Ok ((n + List.length batch)%nat, (m + List.length kept)%nat, acc ++ kept)).
Proof.
  induction batch as [|t batch IH]; intros n m acc.
  - simpl. rewrite !Nat.add_0_r, app_nil_r. reflexivity.
  - rewrite scan_tokens_cons, !traced_bind_snd.
    cbn [Traced.stderr_write Traced.emit snd select].
    destruct (snd (check_token o t)) as [[|]|e]; cbn [bind].
    + rewrite IH. destruct (select o batch) as [kept|e]; cbn [bind]; [|reflexivity].
      rewrite <- app_assoc. simpl. do 3 f_equal; lia.
    + rewrite IH. destruct (select o batch) as [kept|e]; cbn [bind]; [|reflexivity].
      simpl. do 3 f_equal; lia.
    + reflexivity.
Qed.

Lemma scan_tokens_trace o batch :
  forall n m acc,
    yields (fst (scan_tokens o batch n m acc)) = [] /\
    Forall progress_on_stderr (writes (fst (scan_tokens o batch n m acc))).
Proof.
  induction batch as [|t batch IH]; intros n m acc.
  - split; [reflexivity|constructor].
  - rewrite scan_tokens_cons, !traced_bind_fst.
    cbn [Traced.stderr_write Traced.emit snd fst].
    pose proof (check_token_probes o t) as Hp.
    rewrite yields_app, writes_app.
    destruct (snd (check_token o t)) as [[|]|e];
      rewrite ?yields_app, ?writes_app,
              ?(probes_no_yield _ Hp), ?(probes_no_write _ Hp); simpl.
    + destruct (IH (S n) (S m) (acc ++ [t])) as [Hy Hw].
      split; [exact Hy|]. constructor; [reflexivity|exact Hw].
    + destruct (IH (S n) m acc) as [Hy Hw].
      split; [exact Hy|]. constructor; [reflexivity|exact Hw].
    + split; [reflexivity|]. repeat constructor.
Qed.

Lemma scan_batch_result o batch :
  snd (scan_batch o batch) = (_ <- select o batch ;; Ok tt).
Proof.
  unfold scan_batch. rewrite !traced_bind_snd. simpl snd at 1. cbv iota.
  rewrite scan_tokens_result.
  destruct (select o batch) as [kept|e]; reflexivity.
Qed.

Lemma scan_batch_yields o batch :
  yields (fst (scan_batch o batch))
  = match select o batch with
    | Ok kept => [kept]
    | Raise _ => []
    end.
Proof.
  unfold scan_batch. rewrite traced_bind_fst. simpl snd at 1. cbv iota.
  rewrite traced_bind_fst, scan_tokens_result.
  destruct (scan_tokens_trace o batch 0 0 []) as [Hy _].
  rewrite !yields_app. simpl yields at 1.
  destruct (select o batch) as [kept|e]; simpl bind; cbv iota.
  - rewrite yields_app, Hy. reflexivity.
  - rewrite Hy. reflexivity.
Qed.

Lemma scan_batch_writes o batch :
  Forall progress_on_stderr (writes (fst (scan_batch o batch))).
Proof.
  unfold scan_batch. rewrite traced_bind_fst. simpl snd at 1. cbv iota.
  rewrite traced_bind_fst, scan_tokens_result.
  destruct (scan_tokens_trace o batch 0 0 []) as [_ Hw].
  rewrite !writes_app. simpl writes at 1.
  constructor; [reflexivity|].
  destruct (select o batch) as [kept|e]; simpl bind; cbv iota.
  - rewrite writes_app. apply Forall_app. split; [exact Hw|]. repeat constructor.
  - exact Hw.
Qed.

Lemma scan_batches_cons o batch pages :
  scan_batches o (batch :: pages) = (scan_batch o batch ;;~ scan_batches o pages).
Proof. reflexivity. Qed.



Lemma scan_batches_writes o pages :
  Forall progress_on_stderr (writes (fst (scan_batches o pages))).
Proof.
  induction pages as [|batch pages IH]; [constructor|].
  rewrite scan_batches_cons, traced_bind_fst.
  destruct (snd (scan_batch o batch)).
  - rewrite writes_app. apply Forall_app. split; [apply scan_batch_writes|exact IH].
  - apply scan_batch_writes.
Qed.



Lemma select_with_chunksize o c batch :
  select (with_chunksize o c) batch = select o batch.
Proof.
  induction batch as [|t batch IH]; [reflexivity|].
  simpl. rewrite IH. reflexivity.
Qed.

(** *** The loop body against the selection of the specification *)

(** [all(...)] over a filter is the conjunction of its comparators. *)
Lemma all_comparators_result st fs v :
  forall i, snd (all_comparators st i fs v) = conjunction fs v.
Proof.
  induction fs as [|f fs IH]; intros i; [reflexivity|].
  cbn [all_comparators conjunction].
  rewrite traced_bind_snd. cbn [Traced.emit snd].
  rewrite traced_bind_snd. cbn [Traced.lift snd].
  destruct (f v) as [[|]|e]; cbn [bind]; [apply IH|reflexivity|reflexivity].
Qed.

Lemma value_filter_result st fs value :
  snd (value_filter st fs value) = filter_set_on fs value.
Proof.
  destruct value as [v|]; [apply all_comparators_result|reflexivity].
Qed.

(** One [if guard and condition: continue] is one step of the evaluation:
    a check that is asked for runs, records its verdict, and lets the later
    checks run only when the record passed it. *)
Lemma observe_stage_check o record st later guard passes rest :
  condition_of st passes ->
  guard = requested o st ->
  snd passes = satisfies o record st ->
  observe rest = evaluate o record later ->
  observe (stage_check st guard passes rest) = evaluate o record (st :: later).
Proof.
  intros Hc -> Hp Hrest. pose proof (condition_verdicts _ _ Hc) as Hv.
  cbn [evaluate]. rewrite <- Hp, <- Hrest. unfold observe, stage_check.
  destruct (requested o st); [|reflexivity].
  destruct passes as [log [[|]|e]], rest as [log' r]; simpl in *.
  - rewrite verdicts_app, Hv. reflexivity.
  - rewrite verdicts_app, Hv. reflexivity.
  - rewrite Hv. reflexivity.
Qed.

(** The loop body evaluates the checks of the specification, in its order
    and with its short circuit. *)
Lemma check_token_evaluates o record :
  observe (check_token o record) = evaluate o record evaluation_order.
Proof.
  unfold check_token, evaluation_order.
  repeat (apply observe_stage_check;
          [ first [ apply condition_of_ret | apply condition_of_lift
                  | apply condition_of_value_filter ]
          | reflexivity
          | first [ apply value_filter_result | reflexivity ]
          | ]).
  reflexivity.
Qed.

Lemma check_token_result o record :
  snd (check_token o record) = snd (evaluate o record evaluation_order).
Proof. rewrite <- check_token_evaluates. reflexivity. Qed.

Lemma matches_accepted o record : matches o record = accepted o record.
Proof. unfold matches, accepted. rewrite check_token_result. reflexivity. Qed.

Lemma select_selected o batch : select o batch = selected o batch.
Proof.
  induction batch as [|t batch IH]; [reflexivity|].
  cbn [select selected]. rewrite check_token_result, IH. reflexivity.
Qed.

Lemma selected_is_filter o batch :
  forall kept, selected o batch = Ok kept -> kept = List.filter (accepted o) batch.
Proof.
  intros kept E. rewrite <- select_selected in E.
  rewrite (select_is_filter _ _ _ E).
  apply filter_ext. intros t. apply matches_accepted.
Qed.

Lemma scan_batch_selected o batch :
  snd (scan_batch o batch) = (_ <- selected o batch ;; Ok tt) /\
  yields (fst (scan_batch o batch))
  = match selected o batch with
    | Ok kept => [kept]
    | Raise _ => []
    end.
Proof.
  rewrite scan_batch_result, scan_batch_yields, select_selected. split; reflexivity.
Qed.

(** *** Chunks *)






(** *** The claims about the selector *)


(** C6.  For every record the loop body is the evaluation of the
    specification: the checks that are asked for run in the fixed order
    (recency, serial pattern, description pattern, tokeninfo-key absence and
    presence, the value filter on the tokeninfo value and on the column
    value, orphan state), each verdict is what the check requires of the
    record, the first failing check excludes the record and no later check
    runs; the verdicts are recorded in the order of the stages, and a
    failing verdict is the last event of the record's trace, so that no
    comparator runs after it either.  The scan of a batch returns exactly
    when no check raises on a record; the list it then yields is the batch
    filtered by the evaluation, a sublist of the batch in its original
    order, and a scan that raises yields nothing. *)
Theorem selection_keeps_order_and_short_circuits (o : selection)
    (batch : list tokenobj) :
  (forall record : tokenobj,
     let vs := verdicts (fst (check_token o record)) in
     (vs, snd (check_token o record)) = evaluate o record evaluation_order /\
     in_stage_order vs /\
     match snd (check_token o record) with
     | Ok false => exists pre st, vs = pre ++ [(st, false)] /\ Forall passed pre
     | _ => Forall passed vs
     end /\
     stops_at_failure (check_token o record)) /\
  snd (scan_batch o batch) = (_ <- selected o batch ;; Ok tt) /\
  match selected o batch with
  | Ok kept =>
      yields (fst (scan_batch o batch)) = [kept] /\
      kept = List.filter (accepted o) batch /\
      kept `sublist_of` batch
  | Raise _ => yields (fst (scan_batch o batch)) = []
  end.
Proof.
  split; [|split].
  - intros t vs. destruct (check_token_staged o t) as (Hs & _ & Hr).
    split; [exact (check_token_evaluates o t)|].
    split; [exact Hs|]. split; [exact Hr|]. apply check_token_stops_at_failure.
  - apply scan_batch_selected.
  - destruct (scan_batch_selected o batch) as [_ Hy].
    destruct (selected o batch) as [kept|e] eqn:E; [|exact Hy].
    split; [exact Hy|].
    pose proof (selected_is_filter _ _ _ E) as ->.
    split; [reflexivity|apply filter_sublist].
Qed.

(** *** A value filter on a record without the value *)

Lemma excluded_other_stage st st' guard passes rest :
  st' <> st ->
  condition_of st' passes ->
  excluded_uncompared st rest ->
  excluded_uncompared st (stage_check st' guard passes rest).
Proof.
  unfold excluded_uncompared.
  intros Hne Hc [Hr Hcalls]. unfold stage_check. destruct guard; [|split; assumption].
  assert (Hp : forall i, ~ In (st, i) (calls (fst passes))).
  { intros i Hin. apply (condition_calls _ _ _ _ Hc) in Hin. congruence. }
  destruct passes as [log [ok|e]]; simpl in *.
  - destruct ok.
    + destruct rest as [log' r]. simpl in *. split; [exact Hr|].
      intros i. rewrite calls_app, in_app_iff. simpl.
      intros [Hin|Hin]; [exact (Hp i Hin)|exact (Hcalls i Hin)].
    + simpl. split; [discriminate|].
      intros i. rewrite calls_app, in_app_iff. simpl.
      intros [Hin|[]]. exact (Hp i Hin).
  - split; [discriminate|exact Hp].
Qed.

Lemma excluded_absent_value st fs rest :
  excluded_uncompared st (stage_check st true (value_filter st fs None) rest).
Proof.
  unfold excluded_uncompared. simpl. split; [discriminate|]. intros i [].
Qed.

Ltac earlier_stages :=
  repeat (apply excluded_other_stage;
          [ discriminate
          | first [ apply condition_of_ret | apply condition_of_lift
                  | apply condition_of_value_filter ]
          | ]).

(** C9. When a value filter is active (a non-empty filter together with
    its key or attribute name) and the record has no value under that name,
    the record is not matched and no comparator of that filter is applied
    to it; this holds for the tokeninfo filter and for the token-attribute
    filter. *)
Theorem absent_value_excludes_without_comparing (o : selection)
    (token_obj : tokenobj) (st : stage) :
  filter_guard o st = true ->
  looked_up o token_obj st = None ->
  snd (check_token o token_obj) <> Ok true /\
  forall i : nat, ~ In (st, i) (calls (fst (check_token o token_obj))).
Proof.
  intros Hg Hv. change (excluded_uncompared st (check_token o token_obj)).
  unfold check_token.
  destruct st; try discriminate Hg; simpl in Hg, Hv.
  - earlier_stages. rewrite Hg, Hv. apply excluded_absent_value.
  - earlier_stages. rewrite Hg, Hv. apply excluded_absent_value.
Qed.

(** C10. When a last-authentication age is supplied, the recency check is
    the first one: a record whose last authentication is newer than the age
    is excluded by it and nothing else is evaluated for that record; any
    other record passes it and is then treated as if the option had not
    been given.  A record is hence matched exactly when it is not newer and
    the remaining filters match it. *)
Theorem recency_excludes_recently_used_first (o : selection) (token_obj : tokenobj) :
  truthy (last_auth o) = true ->
  let newer := check_last_auth_newer token_obj (or_empty (last_auth o)) in
  let others := check_token (with_last_auth o None) token_obj in
  check_token o token_obj
    = (if newer then ([Checked Recency false], Ok false)
       else (Checked Recency true :: fst others, snd others)) /\
  matches o token_obj = negb newer && matches (with_last_auth o None) token_obj.
Proof.
  intros Ha newer others.
  assert (Heq : check_token o token_obj
                = (if newer then ([Checked Recency false], Ok false)
                   else (Checked Recency true :: fst others, snd others))).
  { unfold check_token at 1. unfold stage_check at 1. rewrite Ha.
    fold newer. destruct newer; [reflexivity|].
    change (negb false) with true. cbn [Traced.ret Traced.bind Traced.emit].
    match goal with
    | |- (let (_, _) := let (_, _) := ?rest in _ in _) = _ =>
        change rest with others
    end.
    destruct others as [log r]. reflexivity. }
  split; [exact Heq|].
  unfold matches. rewrite Heq. fold others.
  destruct newer; reflexivity.
Qed.

End SelectorFacts.

(** ** The actions *)

Section ActingFacts.
Context {store : Type}.
Variable P : stream * kind * string -> Prop.

Lemma traced_writes_ret {A} (a : A) : traced_writes P (Traced.ret a).
Proof. constructor. Qed.

Lemma traced_writes_lift {A} (r : result A) : traced_writes P (Traced.lift r).
Proof. constructor. Qed.

Lemma traced_writes_emit s k text : P (s, k, text) -> traced_writes P (Traced.emit (Emit s k text)).
Proof. intros Hp. constructor; [exact Hp|constructor]. Qed.

Lemma traced_writes_bind {A B} (m : traced A) (f : A -> traced B) :
  traced_writes P m -> (forall a, traced_writes P (f a)) ->
  traced_writes P (Traced.bind m f).
Proof.
  unfold traced_writes. intros Hm Hf. destruct m as [log [a|e]]; simpl in *; [|exact Hm].
  specialize (Hf a). destruct (f a) as [log' r]. simpl in *.
  unfold writes in *. rewrite flat_map_app. apply Forall_app. split; assumption.
Qed.

Lemma acting_writes_ret {A} (a : A) : acting_writes P (Acting.ret (store := store) a).
Proof. intros s. constructor. Qed.

Lemma acting_writes_call {A} (op : store -> store * result A) :
  acting_writes P (Acting.call op).
Proof. intros s. unfold log_of, Acting.call. destruct (op s). constructor. Qed.

Lemma acting_writes_pure {A} (m : traced A) :
  traced_writes P m -> acting_writes P (Acting.pure (store := store) m).
Proof. intros Hm s. exact Hm. Qed.

Lemma acting_writes_bind {A B} (m : acting store A) (f : A -> acting store B) :
  acting_writes P m -> (forall a, acting_writes P (f a)) ->
  acting_writes P (Acting.bind m f).
Proof.
  intros Hm Hf s. specialize (Hm s). unfold log_of, Acting.bind in *.
  destruct (m s) as [s1 [log1 [a|e]]]; simpl in *; [|exact Hm].
  specialize (Hf a s1). unfold log_of in Hf.
  destruct (f a s1) as [s2 [log2 r]]. simpl in *.
  unfold writes in *. rewrite flat_map_app. apply Forall_app. split; assumption.
Qed.

Lemma acting_writes_try {A} (body : acting store A) (handler : exn -> acting store A) :
  acting_writes P body -> (forall e, acting_writes P (handler e)) ->
  acting_writes P (Acting.try_exception body handler).
Proof.
  intros Hm Hf s. specialize (Hm s). unfold log_of, Acting.try_exception in *.
  destruct (body s) as [s1 [log1 [a|e]]]; simpl in *; [exact Hm|].
  specialize (Hf e s1). unfold log_of in Hf.
  destruct (handler e s1) as [s2 [log2 r]]. simpl in *.
  unfold writes in *. rewrite flat_map_app. apply Forall_app. split; assumption.
Qed.

Lemma acting_writes_for_each {A} (l : list A) (body : A -> acting store unit) :
  (forall x, acting_writes P (body x)) -> acting_writes P (Acting.for_each l body).
Proof.
  intros Hb. induction l as [|x l IH]; simpl.
  - apply acting_writes_ret.
  - apply acting_writes_bind; [apply Hb|intros _; exact IH].
Qed.

Lemma acting_writes_when (b : bool) (body : acting store unit) :
  acting_writes P body -> acting_writes P (Acting.when b body).
Proof. destruct b; [trivial|intros _; apply acting_writes_ret]. Qed.

Lemma acting_writes_print k text :
  P (Stdout, k, text +:+ nl) -> acting_writes P (Acting.print (store := store) k text).
Proof. intros Hp s. constructor; [exact Hp|constructor]. Qed.

(** *** Loops whose body catches every exception *)

Lemma always_returns_for_each {A} (l : list A) (body : A -> acting store unit) :
  (forall x, always_returns (body x)) -> always_returns (Acting.for_each l body).
Proof.
  intros Hb. induction l as [|x l IH]; intros s; [reflexivity|].
  unfold outcome_of. simpl. unfold Acting.bind.
  specialize (Hb x s). unfold outcome_of in Hb.
  destruct (body x s) as [s1 [log1 r]]. simpl in Hb. subst r.
  specialize (IH s1). unfold outcome_of in IH.
  destruct (Acting.for_each l body s1) as [s2 [log2 r]]. exact IH.
Qed.

Lemma always_returns_try (body : acting store unit) (handler : exn -> acting store unit) :
  (forall e, always_returns (handler e)) ->
  always_returns (Acting.try_exception body handler).
Proof.
  intros Hh s. unfold outcome_of, Acting.try_exception.
  destruct (body s) as [s1 [log1 [[]|e]]]; [reflexivity|].
  specialize (Hh e s1). unfold outcome_of in Hh.
  destruct (handler e s1) as [s2 [log2 r]]. exact Hh.
Qed.

End ActingFacts.

Section CommandFacts.
Context `{Libraries} {store : Type} `{TokenLibrary store}.

Ltac traced_step :=
  first
    [ apply traced_writes_ret
    | apply traced_writes_lift
    | apply traced_writes_emit; reflexivity
    | apply traced_writes_bind; [|intros ?] ].

Ltac acting_step :=
  first
    [ apply acting_writes_ret
    | apply acting_writes_call
    | apply acting_writes_print; reflexivity
    | apply acting_writes_when
    | apply acting_writes_for_each; intros ?
    | apply acting_writes_try; [|intros ?]
    | apply acting_writes_bind; [|intros ?]
    | apply acting_writes_pure ].

(** *** The mutating actions print to the standard output *)

Lemma failed_to_process_stdout t e :
  acting_writes on_stdout (Action.failed_to_process (store := store) t e).
Proof. unfold Action.failed_to_process. repeat acting_step. Qed.

Lemma failed_to_process_returns t e :
  always_returns (Action.failed_to_process (store := store) t e).
Proof. intros s. reflexivity. Qed.

Lemma mutating_actions_stdout (generator : list (list tokenobj))
    (description tokeninfo : option string) :
  acting_writes on_stdout (Action.tokenrealms generator) /\
  acting_writes on_stdout (Action.disable generator) /\
  acting_writes on_stdout (Action.delete generator) /\
  acting_writes on_stdout (Action.unassign generator) /\
  acting_writes on_stdout (Action.set_description description generator) /\
  acting_writes on_stdout (Action.set_tokeninfo tokeninfo generator) /\
  acting_writes on_stdout (Action.delete_tokeninfo tokeninfo generator).
Proof.
  unfold Action.tokenrealms, Action.disable, Action.delete, Action.unassign,
    Action.set_description, Action.set_tokeninfo, Action.delete_tokeninfo.
  repeat split;
    repeat first [ apply failed_to_process_stdout
                 | apply traced_writes_lift
                 | acting_step ].
Qed.

(** The four actions that catch the error of a record return on every
    stream of matched lists and every store state: the error of one record
    ends neither the batch nor the run. *)
Lemma guarded_actions_isolate_failures (generator : list (list tokenobj)) :
  always_returns (Action.tokenrealms generator) /\
  always_returns (Action.disable generator) /\
  always_returns (Action.delete generator) /\
  always_returns (Action.unassign generator).
Proof.
  unfold Action.tokenrealms, Action.disable, Action.delete, Action.unassign.
  repeat split;
    (apply always_returns_for_each; intros tlist;
     apply always_returns_for_each; intros t;
     apply always_returns_try; intros e; apply failed_to_process_returns).
Qed.

(** *** Listing and export separate payload and diagnostics *)

Lemma export_token_row_separated t attributes :
  traced_writes separated (Action.export_token_row t attributes).
Proof.
  unfold Action.export_token_row.
  match goal with |- context [match ?r with Ok _ => _ | Raise _ => _ end] => destruct r end;
    repeat traced_step.
Qed.

Lemma export_token_data_separated tlist attributes :
  traced_writes separated (Action.export_token_data tlist attributes).
Proof.
  induction tlist as [|t tlist IH]; cbn [Action.export_token_data];
    [apply traced_writes_ret|].
  apply traced_writes_bind; [apply export_token_row_separated|intros row].
  apply traced_writes_bind; [exact IH|intros rows]. apply traced_writes_ret.
Qed.

Lemma export_user_data_loop_separated tlist attributes :
  forall user users,
    traced_writes separated (Action.export_user_data_loop tlist attributes user users).
Proof.
  induction tlist as [|t tlist IH]; intros user users;
    cbn [Action.export_user_data_loop]; [apply traced_writes_ret|].
  apply traced_writes_bind.
  - destruct (token_user t); repeat traced_step.
  - intros user'. repeat traced_step. apply IH.
Qed.

Lemma listuser_separated sum_tokens attributes generator :
  acting_writes separated (Action.listuser (store := store) sum_tokens attributes generator).
Proof.
  unfold Action.listuser. apply acting_writes_for_each. intros tlist.
  destruct sum_tokens; cbn [negb].
  - apply acting_writes_bind.
    + apply acting_writes_pure. apply export_user_data_loop_separated.
    + intros users. repeat acting_step.
  - apply acting_writes_bind.
    + apply acting_writes_pure. apply export_token_data_separated.
    + intros tokens. repeat acting_step.
Qed.

Lemma export_csv_separated b32 tlist :
  forall token_dict, traced_writes separated (Action.export_csv b32 tlist token_dict).
Proof.
  induction tlist as [|t tlist IH]; intros token_dict; cbn [Action.export_csv];
    [apply traced_writes_ret|].
  destruct (negb _); [apply IH|].
  repeat traced_step. apply IH.
Qed.

Lemma export_yaml_separated b32 tlist :
  forall token_dict token_list,
    traced_writes separated (Action.export_yaml b32 tlist token_dict token_list).
Proof.
  induction tlist as [|t tlist IH]; intros token_dict token_list;
    cbn [Action.export_yaml]; [apply traced_writes_ret|].
  destruct (token_to_dict t b32) as [d|e].
  - destruct (Action.owner_of t); [apply IH|].
    repeat traced_step. apply IH.
  - repeat traced_step. apply IH.
Qed.

Lemma export_pskc_batch_separated tlist :
  traced_writes separated (Action.export_pskc_batch tlist).
Proof.
  unfold Action.export_pskc_batch.
  apply traced_writes_bind; [apply traced_writes_lift|].
  intros [[key token_num] soup]. repeat traced_step.
Qed.

Lemma export_batches_separated export_format b32 generator :
  forall token_dict,
    traced_writes separated (Action.export_batches export_format b32 generator token_dict).
Proof.
  induction generator as [|tlist generator IH]; intros token_dict;
    cbn [Action.export_batches]; [apply traced_writes_ret|].
  destruct (str_is export_format "csv").
  - apply traced_writes_bind; [apply export_csv_separated|intros d; apply IH].
  - destruct (str_is export_format "yaml").
    + apply traced_writes_bind; [apply export_yaml_separated|intros exported].
      repeat traced_step. apply IH.
    + apply traced_writes_bind; [apply export_pskc_batch_separated|intros _; apply IH].
Qed.

Lemma progress_is_separated w : progress_on_stderr w -> separated w.
Proof.
  destruct w as [[s k] text]. unfold progress_on_stderr, separated. simpl.
  intros [= -> ->]. reflexivity.
Qed.

(** C8, as the code has it.  The scan writes its progress text to the error stream
    only, and the listing and export actions write their payload to the
    standard output only and their diagnostics and notices to the error
    stream only.  The mutating actions are different: all they write,
    progress lines and failure diagnostics alike, goes to the standard
    output. *)
Theorem output_streams (s : store) (o : selection) (generator : list (list tokenobj))
    (sum_tokens : bool) (attributes export_format_b32 description tokeninfo : option string)
    (export_format : string) :
  Forall separated (writes (fst (_get_tokenlist s o))) /\
  Forall separated (writes (log_of (Action.listuser sum_tokens attributes generator) s)) /\
  Forall separated
    (writes (log_of (Action.export export_format export_format_b32 generator) s)) /\
  Forall on_stdout (writes (log_of (Action.tokenrealms generator) s)) /\
  Forall on_stdout (writes (log_of (Action.disable generator) s)) /\
  Forall on_stdout (writes (log_of (Action.delete generator) s)) /\
  Forall on_stdout (writes (log_of (Action.unassign generator) s)) /\
  Forall on_stdout (writes (log_of (Action.set_description description generator) s)) /\
  Forall on_stdout (writes (log_of (Action.set_tokeninfo tokeninfo generator) s)) /\
  Forall on_stdout (writes (log_of (Action.delete_tokeninfo tokeninfo generator) s)).
Proof.
  split.
  { unfold _get_tokenlist. eapply Forall_impl; [apply scan_batches_writes|].
    apply progress_is_separated. }
  split; [apply listuser_separated|].
  split; [apply (export_batches_separated export_format export_format_b32 generator None)|].
  destruct (mutating_actions_stdout generator description tokeninfo)
    as (H1 & H2 & H3 & H4 & H5 & H6 & H7).
  repeat split; [apply H1|apply H2|apply H3|apply H4|apply H5|apply H6|apply H7].
Qed.

End CommandFacts.

(** ** Further properties of the comparators and of the filter *)

Section FilterFacts.
Context `{Libraries}.

(** On one integer operand, GT and LT never both hold of a stored value, and
    neither holds exactly when the value is the operand or is not an
    integer. *)
Theorem greater_less_exclusive (key v : string) (gt lt : comparator) (x : pyval) :
  _compare_greater_than key v = Ok gt ->
  _compare_less_than key v = Ok lt ->
  exists (n : Z) (a b : bool),
    py_int (VStr v) = Ok n /\ gt x = Ok a /\ lt x = Ok b /\
    a && b = false /\
    (a || b = false <-> py_int x = Ok n \/ is_ok (py_int x) = false).
Proof.
  unfold _compare_greater_than, _compare_less_than.
  destruct (_try_convert_to_integer v) as [n|e] eqn:E; cbn [bind]; [|discriminate].
  intros [= <-] [= <-]. apply try_convert_to_integer_ok in E.
  rewrite (numeric_eval Z.gtb), (numeric_eval Z.ltb).
  exists n. destruct (py_int x) as [m|e'] eqn:Ex.
  - exists (m >? n), (m <? n). repeat split; trivial.
    + rewrite Z.gtb_ltb. destruct (Z.ltb_spec n m), (Z.ltb_spec m n); trivial; lia.
    + rewrite Z.gtb_ltb. destruct (Z.ltb_spec n m), (Z.ltb_spec m n); simpl;
        try discriminate. intros _. left. f_equal. lia.
    + intros [[= ->]|Hno]; [|discriminate Hno].
      rewrite Z.gtb_ltb, Z.ltb_irrefl. reflexivity.
  - exists false, false. repeat split; trivial. intros _. right. reflexivity.
Qed.

(** An operand without a zone is taken in the local zone: against a stored
    value that parses to a zone-aware datetime, AFTER and BEFORE compare the
    value's instant with the operand's wall time shifted by the local
    offset. *)
Theorem naive_operand_is_local_time (key operand : string) (parsed d : datetime)
    (x : pyval) (off : Z) :
  parser_parse (VStr operand) = Ok parsed ->
  tzinfo parsed = None ->
  _parse_datetime key x = Ok d ->
  tzinfo d = Some off ->
  exists after before,
    _compare_after key operand = Ok after /\
    _compare_before key operand = Ok before /\
    after x = Ok (wall d - off >? wall parsed - tzlocal_utcoffset (wall parsed)) /\
    before x = Ok (wall d - off <? wall parsed - tzlocal_utcoffset (wall parsed)).
Proof.
  intros Hp Hn Hd Ha.
  unfold _compare_after, _compare_before, _try_convert_to_datetime.
  rewrite Hp. cbn [bind]. rewrite Hn. cbn [try_except bind].
  eexists _, _. split; [reflexivity|]. split; [reflexivity|].
  cbn beta. rewrite Hd. cbn [bind].
  unfold datetime_gt, datetime_lt, datetime_cmp, instant. rewrite Ha. cbn.
  split; reflexivity.
Qed.

Lemma append_if_length o mk l l' :
  append_if o mk l = Ok l' ->
  List.length l' = (List.length l + (if truthy o then 1 else 0))%nat.
Proof.
  unfold append_if. destruct o as [v|]; cbn [truthy].
  - destruct (negb (String.eqb v "")).
    + destruct (mk v); cbn [bind]; [|discriminate].
      intros [= <-]. rewrite length_app. reflexivity.
    + intros [= <-]. lia.
  - intros [= <-]. lia.
Qed.

(** A filter that is built has one comparator for each option that was
    supplied with a non-empty text, and no other. *)
Theorem built_filter_has_one_comparator_per_option (key : string)
    (eq gt lt after before : option string) (tvfilter : list comparator) :
  build_tokenvalue_filter key eq gt lt after before = Ok tvfilter ->
  List.length tvfilter
  = List.length (List.filter truthy [eq; gt; lt; after; before]).
Proof.
  unfold build_tokenvalue_filter.
  destruct (append_if eq _ []) as [l1|e] eqn:E1; cbn [bind]; [|discriminate].
  destruct (append_if gt _ l1) as [l2|e] eqn:E2; cbn [bind]; [|discriminate].
  destruct (append_if lt _ l2) as [l3|e] eqn:E3; cbn [bind]; [|discriminate].
  destruct (append_if after _ l3) as [l4|e] eqn:E4; cbn [bind]; [|discriminate].
  intros E5.
  apply append_if_length in E1, E2, E3, E4, E5.
  rewrite E5, E4, E3, E2, E1. simpl.
  destruct (truthy eq), (truthy gt), (truthy lt), (truthy after), (truthy before);
    reflexivity.
Qed.

(** A greater-than operand that is not an integer stops the construction of
    the filter with the user error that names it, whatever the other options
    are. *)
Theorem filter_rejects_non_integer_operand (key v : string)
    (eq lt after before : option string) :
  v <> "" ->
  int_of_str v = None ->
  build_tokenvalue_filter key eq (Some v) lt after before
  = Raise (Exn ClickException ("Not an integer: " +:+ v)).
Proof.
  intros Hv Hint. unfold build_tokenvalue_filter.
  assert (Heq : exists l1, append_if eq (_compare_regex_or_equal key) [] = Ok l1).
  { unfold append_if. destruct eq as [e|]; [|eauto].
    destruct (truthy (Some e)); cbn; eauto. }
  destruct Heq as [l1 ->]. cbn [bind].
  unfold append_if at 1. cbn [truthy].
  destruct (String.eqb_spec v ""); [contradiction|]. cbn [negb].
  unfold _compare_greater_than, _try_convert_to_integer. cbn [py_int].
  rewrite Hint. reflexivity.
Qed.

Lemma all_comparators_cons st i f fs v :
  all_comparators st i (f :: fs) v
  = (Traced.emit (Called st i) ;;~
     b <~ Traced.lift (f v) ;;
     if b then all_comparators st (S i) fs v else Traced.ret false).
Proof. reflexivity. Qed.

(** The comparators of a filter are applied from the left, and none is
    applied after the first one that does not return true: the outcome is
    that comparator's error, or false. *)
Theorem filter_stops_at_first_failure (st : stage) (i : nat)
    (pre post : list comparator) (f : comparator) (v : pyval) :
  Forall (fun g => g v = Ok true) pre ->
  f v <> Ok true ->
  calls (fst (all_comparators st i (pre ++ f :: post) v))
    = map (fun j => (st, (i + j)%nat)) (seq 0 (S (List.length pre))) /\
  snd (all_comparators st i (pre ++ f :: post) v)
    = match f v with Ok _ => Ok false | Raise e => Raise e end.
Proof.
  intros Hpre Hf. revert i. induction Hpre as [|g pre Hg _ IH]; intros i.
  - cbn [app all_comparators]. destruct (f v) as [[|]|e]; [congruence| |];
      cbn; rewrite Nat.add_0_r; split; reflexivity.
  - destruct (IH (S i)) as [Hc Hr].
    change ((g :: pre) ++ f :: post) with (g :: (pre ++ f :: post)).
    rewrite all_comparators_cons, traced_bind_fst, traced_bind_snd.
    cbn [Traced.emit fst snd].
    rewrite traced_bind_fst, traced_bind_snd. cbn [Traced.lift fst snd].
    rewrite Hg. split; [|exact Hr].
    cbn [app]. change (calls (Called st i :: ?l)) with ((st, i) :: calls l).
    change (seq 0 (S (List.length (g :: pre))))
      with (0%nat :: seq 1 (S (List.length pre))).
    cbn [map]. rewrite Nat.add_0_r. f_equal.
    etransitivity; [exact Hc|].
    rewrite <- (seq_shift (S (List.length pre)) 0), map_map.
    apply map_ext. intros j. f_equal. lia.
Qed.

Lemma all_comparators_true (st : stage) (fs : list comparator) (v : pyval) :
  forall i, snd (all_comparators st i fs v) = Ok true <-> Forall (fun f => f v = Ok true) fs.
Proof.
  induction fs as [|f fs IH]; intros i; cbn [all_comparators].
  - split; [constructor|reflexivity].
  - destruct (f v) as [[|]|e] eqn:E; cbn.
    + specialize (IH (S i)). destruct (all_comparators st (S i) fs v) as [log r].
      cbn in *. rewrite IH. split; [intros; constructor; assumption|].
      intros Hall. apply Forall_cons_1 in Hall as [_ Hall]. exact Hall.
    + split; [discriminate|]. intros Hall. apply Forall_cons_1 in Hall as [Hf _]. congruence.
    + split; [discriminate|]. intros Hall. apply Forall_cons_1 in Hall as [Hf _]. congruence.
Qed.

End FilterFacts.

(** ** Further properties of the criterion parser *)

Module CriterionPatternFacts.
Import Re.

Lemma star_then_captures (Q : list string -> Prop) p k s m :
  (forall s' m', k s' = Some m' -> Q (groups m')) ->
  star_then p k s = Some m -> Q (groups m).
Proof.
  intros Hk. revert m. induction s as [|c s IH]; simpl; intros m.
  - apply Hk.
  - destruct (p c); [|apply Hk].
    destruct (consume c (star_then p k s)) as [m1|] eqn:E.
    + intros [= <-]. apply ReFacts.consume_groups in E as (m0 & E0 & ->). eauto.
    + apply Hk.
Qed.

(** Every captured text is one character that a group of the pattern
    allows. *)
Lemma match_here_captures (q : ascii -> bool) r :
  (forall p, In (Group p) r -> forall c, p c = true -> q c = true) ->
  forall s m, match_here r s = Some m ->
    Forall (fun g => exists c, g = String c "" /\ q c = true) (groups m).
Proof.
  induction r as [|a r IH]; intros Hq s m; cbn [match_here].
  - intros [= <-]. constructor.
  - assert (Hr : forall p, In (Group p) r -> forall c, p c = true -> q c = true).
    { intros p Hin. apply Hq. right. exact Hin. }
    specialize (IH Hr). destruct a as [p|p|p|].
    + destruct s as [|c s]; [discriminate|]. destruct (p c); [|discriminate].
      intros E. apply ReFacts.consume_groups in E as (m0 & E0 & ->). eauto.
    + apply star_then_captures. exact IH.
    + destruct s as [|c s]; [discriminate|]. destruct (p c) eqn:Hp; [|discriminate].
      destruct (match_here r s) as [[w g]|] eqn:E; simpl; [|discriminate].
      intros [= <-]. simpl. constructor; [|apply (IH _ _ E)].
      exists c. split; [reflexivity|]. apply (Hq p); [left; reflexivity|exact Hp].
    + destruct (at_end s); [apply IH|discriminate].
Qed.

End CriterionPatternFacts.

Section CriterionParserFacts.
Context `{Libraries}.

Lemma criterion_match_shape (text : string) (m : Re.match_obj) :
  Re.match_here criterion_pattern text = Some m ->
  exists c : ascii,
    Re.groups m = [String c ""] /\ (c = "<" \/ c = ">" \/ c = "=")%char.
Proof.
  intros E.
  pose proof (ReFacts.match_here_groups _ _ _ E) as Hlen.
  pose proof (CriterionPatternFacts.match_here_captures (Re.one_of "<>=")
                criterion_pattern) as Hcap.
  specialize (Hcap ltac:(
    intros p Hin c Hp; cbn in Hin;
    repeat (destruct Hin as [Hin|Hin]; [try discriminate Hin|]);
    [injection Hin as <-; exact Hp|contradiction]) _ _ E).
  change (Re.count_groups criterion_pattern) with 1%nat in Hlen.
  destruct (Re.groups m) as [|g [|? ?]]; try discriminate Hlen.
  apply Forall_cons_1 in Hcap as [(c & -> & Hc) _].
  exists c. split; [reflexivity|].
  unfold Re.one_of in Hc. cbn in Hc.
  destruct (Ascii.eqb_spec c "<"%char); [auto|].
  destruct (Ascii.eqb_spec c ">"%char); [auto|].
  destruct (Ascii.eqb_spec c "="%char); [auto|discriminate].
Qed.

(** Whatever text the pattern of [find] matches, its one group holds a
    single character, one of [<], [>] and [=]: never one of the two-character
    operators the branches of [find] compare it with, and never a value. *)
Theorem criterion_pattern_captures_one_character (text : string) (m : Re.match_obj) :
  Re.match_here criterion_pattern text = Some m ->
  exists c : ascii,
    Re.groups m = [String c ""] /\ (c = "<" \/ c = ">" \/ c = "=")%char.
Proof. apply criterion_match_shape. Qed.

(** How [find] fails on its tokeninfo expression: without the option,
    [re.match] rejects [None]; on a text the pattern does not match, the
    result [None] has no [group]; and on every text the pattern matches no
    branch assigns a variable, so that the call that builds the filter reads
    the unassigned [tokeninfo_value]. *)
Theorem find_failure_modes (tokeninfo tokenattribute : option string) :
  find_criteria tokeninfo tokenattribute
  = match tokeninfo with
    | None => Raise (Exn TypeError "expected string or bytes-like object")
    | Some text =>
        match Re.match_here criterion_pattern text with
        | None => Raise (Exn AttributeError "'NoneType' object has no attribute 'group'")
        | Some _ =>
            Raise (Exn UnboundLocalError
                     "local variable 'tokeninfo_value' referenced before assignment")
        end
    end.
Proof.
  unfold find_criteria, tokeninfo_criterion.
  destruct tokeninfo as [text|]; cbn [Re.re_match bind]; [|reflexivity].
  destruct (Re.match_here criterion_pattern text) as [m|] eqn:E; [|reflexivity].
  destruct (criterion_match_shape _ _ E) as (c & Hg & _).
  destruct m as [w g]. cbn in Hg. subst g.
  cbn [Re.group Re.groups Re.whole nth_error bind].
  assert (H2 : String.eqb (String c "") "==" = false)
    by (cbn; destruct (Ascii.eqb c "="); reflexivity).
  assert (Hge : String.eqb (String c "") ">=" = false)
    by (cbn; destruct (Ascii.eqb c ">"); reflexivity).
  assert (Hle : String.eqb (String c "") "<=" = false)
    by (cbn; destruct (Ascii.eqb c "<"); reflexivity).
  rewrite H2. cbn [try_except_all bind Re.group Re.groups nth_error].
  rewrite Hge. cbn [bind Re.group Re.groups nth_error]. rewrite Hle.
  reflexivity.
Qed.

End CriterionParserFacts.

(** ** Further properties of the selector *)

Section SelectionFacts.
Context `{Libraries} {store : Type} `{TokenLibrary store}.

Lemma stage_check_true st guard passes rest :
  snd (stage_check st guard passes rest) = Ok true
  <-> (guard = true -> snd passes = Ok true) /\ snd rest = Ok true.
Proof.
  unfold stage_check. destruct guard.
  - destruct passes as [log [[|]|e]], rest as [log' r]; cbn;
      intuition congruence.
  - intuition congruence.
Qed.

Lemma value_filter_true st fs value :
  snd (value_filter st fs value) = Ok true
  <-> exists v, value = Some v /\ Forall (fun f => f v = Ok true) fs.
Proof.
  destruct value as [v|]; cbn [value_filter].
  - rewrite all_comparators_true. split; [eauto|].
    intros (v' & [= <-] & Hall). exact Hall.
  - split; [discriminate|]. intros (v & Hv & _). discriminate.
Qed.

Lemma absent_key_test (d : gmap string string) (k : string) :
  negb (bool_decide (is_Some (d !! k))) = true <-> d !! k = None.
Proof.
  rewrite negb_true_iff, bool_decide_eq_false, <- eq_None_not_Some. reflexivity.
Qed.

(** A record is matched exactly when it satisfies every condition that was
    supplied: it was not used recently, the two patterns are found, the key
    that must be absent is absent and the key that must be present is
    present, every comparator of each active value filter returns true on
    the value it looks up, and the record is orphaned, or not, as asked. *)
Theorem matched_iff_all_conditions (o : selection) (token_obj : tokenobj) :
  snd (check_token o token_obj) = Ok true <->
  (truthy (last_auth o) = true ->
   check_last_auth_newer token_obj (or_empty (last_auth o)) = false) /\
  (truthy (serial o) = true ->
   re_search (or_empty (serial o)) (token_serial token_obj) = Ok true) /\
  (truthy (description o) = true ->
   re_search (or_empty (description o)) (token_description token_obj) = Ok true) /\
  (truthy (has_not_tokeninfo_key o) = true ->
   get_tokeninfo token_obj !! or_empty (has_not_tokeninfo_key o) = None) /\
  (truthy (has_tokeninfo_key o) = true ->
   is_Some (get_tokeninfo token_obj !! or_empty (has_tokeninfo_key o))) /\
  (filter_guard o TokeninfoValue = true ->
   exists v, looked_up o token_obj TokeninfoValue = Some v /\
             Forall (fun f => f v = Ok true) (tokeninfo_value_filter o)) /\
  (filter_guard o AttributeValue = true ->
   exists v, looked_up o token_obj AttributeValue = Some v /\
             Forall (fun f => f v = Ok true) (tokenattribute_filter o)) /\
  (str_in (str_upper (or_empty (orphaned o))) ["1"; "TRUE"] = true ->
   is_orphaned token_obj = true) /\
  (str_in (str_upper (or_empty (orphaned o))) ["0"; "FALSE"] = true ->
   is_orphaned token_obj = false).
Proof.
  unfold check_token. rewrite !stage_check_true, !value_filter_true.
  cbn [Traced.ret Traced.lift snd filter_guard looked_up].
  assert (Hok : forall b, @Ok bool b = Ok true <-> b = true)
    by (intros b; split; congruence).
  rewrite !Hok, absent_key_test, bool_decide_eq_true, !negb_true_iff.
  tauto.
Qed.

Lemma select_all_matched o batch :
  (forall t, In t batch -> snd (check_token o t) = Ok true) -> select o batch = Ok batch.
Proof.
  induction batch as [|t batch IH]; intros Hall; [reflexivity|].
  cbn [select]. rewrite (Hall t (or_introl eq_refl)). cbn [bind].
  rewrite IH; [reflexivity|]. intros t' Hin. apply Hall. right. exact Hin.
Qed.

(** Without any option that filters records, the scan returns and yields one
    list, the whole result set of the store in its order ([str.upper] maps
    the empty text to itself). *)
Theorem scan_without_options_yields_everything (s : store)
    (assigned active tokentype : option string) :
  str_upper "" = "" ->
  let o := Selection None assigned active None [] None [] None tokentype
             None None None None None in
  snd (_get_tokenlist s o) = Ok tt /\
  yields (fst (_get_tokenlist s o))
    = [get_tokens s tokentype (tri_state active) (tri_state assigned)].
Proof.
  intros Hupper o.
  assert (Hsel : forall batch, select o batch = Ok batch).
  { intros batch. apply select_all_matched. intros t _.
    unfold check_token, o. cbn. rewrite Hupper. reflexivity. }
  unfold _get_tokenlist. cbn [chunksize o scan_batches].
  rewrite traced_bind_snd, traced_bind_fst, scan_batch_result, Hsel. cbn [bind].
  split; [reflexivity|].
  rewrite yields_app, scan_batch_yields, Hsel. reflexivity.
Qed.

(** When the scan of a batch returns, the last progress line it writes
    gives the size of the batch and the number of matched records. *)
Theorem final_progress_line_counts (o : selection) (batch kept : list tokenobj) :
  select o batch = Ok kept ->
  In (Stderr, Progress,
      progress_line (List.length batch) (List.length kept) (cr +:+ nl))
     (writes (fst (scan_batch o batch))).
Proof.
  intros E. pose proof (scan_tokens_result o batch 0 0 []) as Hr.
  rewrite E in Hr. cbn in Hr.
  unfold scan_batch. destruct (scan_tokens o batch 0 0 []) as [log r].
  cbn in Hr. subst r. cbn.
  right. rewrite writes_app, in_app_iff. right. left. reflexivity.
Qed.

Lemma select_raises o batch t e :
  In t batch -> snd (check_token o t) = Raise e -> exists e', select o batch = Raise e'.
Proof.
  induction batch as [|t' batch IH]; [contradiction|].
  intros [->|Hin] Ht; cbn [select].
  - rewrite Ht. eauto.
  - destruct (snd (check_token o t')) as [b|e']; cbn [bind]; [|eauto].
    destruct (IH Hin Ht) as [e' ->]. eauto.
Qed.

(** A check that raises on one record of a batch ends the scan of the batch
    with an error, and the batch yields nothing, not even the records that
    matched before. *)
Theorem check_error_yields_nothing (o : selection) (batch : list tokenobj)
    (token_obj : tokenobj) (e : exn) :
  In token_obj batch ->
  snd (check_token o token_obj) = Raise e ->
  (exists e', snd (scan_batch o batch) = Raise e') /\
  yields (fst (scan_batch o batch)) = [].
Proof.
  intros Hin Ht. destruct (select_raises _ _ _ _ Hin Ht) as [e' E].
  rewrite scan_batch_result, scan_batch_yields, E. split; [eauto|reflexivity].
Qed.

(** Batches are scanned one after the other: when the second batch raises,
    the matches of the first have already been yielded. *)
Theorem later_error_keeps_earlier_yield (o : selection)
    (first second : list tokenobj) (rest : list (list tokenobj))
    (kept : list tokenobj) (e : exn) :
  select o first = Ok kept ->
  select o second = Raise e ->
  snd (scan_batches o (first :: second :: rest)) = Raise e /\
  yields (fst (scan_batches o (first :: second :: rest))) = [kept].
Proof.
  intros E1 E2.
  rewrite !scan_batches_cons, !traced_bind_snd, !traced_bind_fst.
  rewrite !scan_batch_result, E1, E2. cbn [bind].
  rewrite yields_app, !scan_batch_yields, E1, E2. split; reflexivity.
Qed.

End SelectionFacts.

(** ** Further properties of the actions *)

Section SplitFacts.

Lemma py_split_nonempty sep s : py_split sep s <> [].
Proof.
  destruct s as [|c s]; cbn [py_split]; [discriminate|].
  destruct (Ascii.eqb c sep); [discriminate|].
  destruct (py_split sep s); discriminate.
Qed.

Lemma py_join_cons sep x l :
  l <> [] -> py_join sep (x :: l) = x +:+ sep +:+ py_join sep l.
Proof. destruct l; [contradiction|reflexivity]. Qed.

(** Joining the parts of a split with the separator gives the text back. *)
Lemma join_split_round_trip (sep : ascii) (s : string) :
  py_join (String sep "") (py_split sep s) = s.
Proof.
  induction s as [|c s IH]; [reflexivity|].
  cbn [py_split]. pose proof (py_split_nonempty sep s) as Hne.
  destruct (Ascii.eqb_spec c sep) as [->|Hc].
  - rewrite py_join_cons by exact Hne. rewrite IH. reflexivity.
  - destruct (py_split sep s) as [|h t] eqn:E; [contradiction|].
    rewrite <- IH. destruct t; reflexivity.
Qed.

(** A split has one part more than the text has separators, and no part
    contains the separator. *)
Lemma split_parts (sep : ascii) (s : string) :
  List.length (py_split sep s)
    = S (List.length (List.filter (Ascii.eqb sep) (list_ascii_of_string s))) /\
  Forall (fun part => existsb (Ascii.eqb sep) (list_ascii_of_string part) = false)
         (py_split sep s).
Proof.
  induction s as [|c s [IHl IHf]]; [split; [reflexivity|repeat constructor]|].
  cbn [py_split list_ascii_of_string List.filter].
  rewrite (Ascii.eqb_sym sep c).
  destruct (Ascii.eqb c sep) eqn:Hc.
  - cbn [List.length]. rewrite IHl. split; [reflexivity|].
    constructor; [reflexivity|exact IHf].
  - destruct (py_split sep s) as [|h t]; [discriminate IHl|].
    cbn [List.length] in *. split; [exact IHl|].
    apply Forall_cons_1 in IHf as [Hh Ht]. constructor; [|exact Ht].
    cbn [list_ascii_of_string existsb]. rewrite (Ascii.eqb_sym sep c), Hc. exact Hh.
Qed.

Lemma py_split_without_separator sep s :
  existsb (Ascii.eqb sep) (list_ascii_of_string s) = false -> py_split sep s = [s].
Proof.
  induction s as [|c s IH]; [reflexivity|].
  cbn [list_ascii_of_string existsb py_split].
  rewrite (Ascii.eqb_sym sep c). destruct (Ascii.eqb c sep); [discriminate|].
  cbn [orb]. intros Hs. rewrite (IH Hs). reflexivity.
Qed.

End SplitFacts.

Section LoopFacts.
Context {store : Type}.

(** A loop whose body always returns, writes what depends on the element
    only and changes the state by [step]. *)
Lemma for_each_uniform {A} (l : list A) (body : A -> acting store unit)
    (step : A -> store -> store) (out : A -> list event) :
  (forall x s, body x s = (step x s, (out x, Ok tt))) ->
  forall s,
    Acting.for_each l body s
    = (fold_left (fun s x => step x s) l s, (flat_map out l, Ok tt)).
Proof.
  intros Hb. induction l as [|x l IH]; intros s; [reflexivity|].
  cbn [Acting.for_each fold_left flat_map]. unfold Acting.bind.
  rewrite Hb, IH. reflexivity.
Qed.

Lemma acting_bind_run {A B} (m : acting store A) (f : A -> acting store B) (s : store) :
  Acting.bind m f s
  = match m s with
    | (s1, (log1, Ok a)) =>
        match f a s1 with
        | (s2, (log2, r)) => (s2, (log1 ++ log2, r))
        end
    | (s1, (log1, Raise e)) => (s1, (log1, Raise e))
    end.
Proof. reflexivity. Qed.

Lemma fold_left_id {A} (l : list A) (s : store) : fold_left (fun s _ => s) l s = s.
Proof. induction l as [|x l IH]; [reflexivity|exact IH]. Qed.

Lemma flat_map_nil {A B} (l : list A) : flat_map (fun _ : A => @nil B) l = [].
Proof. induction l as [|x l IH]; [reflexivity|exact IH]. Qed.

End LoopFacts.

Section MutationFacts.
Context `{Libraries} {store : Type} `{TokenLibrary store}.

(** When the library call never raises, [disable] writes one line for each
    matched record, in the order of the stream, and nothing else. *)
Theorem disable_reports_each_record (generator : list (list tokenobj)) (s : store) :
  (forall serial s', snd (enable_token serial false s') = Ok tt) ->
  writes (log_of (Action.disable generator) s)
  = map (fun t => (Stdout, Progress, "Disabling token " +:+ token_serial t +:+ nl))
        (concat generator).
Proof.
  intros Hok. unfold Action.disable, log_of.
  set (line := fun t => Emit Stdout Progress ("Disabling token " +:+ token_serial t +:+ nl)).
  set (step := fun (t : tokenobj) (s : store) => fst (enable_token (token_serial t) false s)).
  assert (Hinner : forall tlist s',
            Acting.for_each tlist (fun token_obj =>
              Acting.try_exception
                (Acting.call (enable_token (token_serial token_obj) false) ;;:
                 Acting.print Progress ("Disabling token " +:+ token_serial token_obj))
                (Action.failed_to_process token_obj)) s'
            = (fold_left (fun s x => step x s) tlist s',
               (flat_map (fun t => [line t]) tlist, Ok tt))).
  { intros tlist. apply for_each_uniform. intros t s'.
    unfold Acting.try_exception, Acting.bind, Acting.call, step.
    specialize (Hok (token_serial t) s').
    destruct (enable_token (token_serial t) false s') as [s1 r].
    cbn in Hok. subst r. reflexivity. }
  rewrite (for_each_uniform generator _
             (fun tlist s' => fold_left (fun s x => step x s) tlist s')
             (fun tlist => flat_map (fun t => [line t]) tlist)
             Hinner).
  cbn [fst snd]. clear Hinner.
  induction generator as [|tlist generator IH]; [reflexivity|].
  cbn [flat_map concat]. rewrite writes_app, map_app, IH. f_equal.
  clear IH. induction tlist as [|t tlist IH]; [reflexivity|].
  cbn. rewrite <- IH. reflexivity.
Qed.

(** Inside the command [tokenrealms] the name [tokenrealms] is the command
    itself, so that [tokenrealms.split] raises: the command then changes
    nothing in the store, sets no realm, and reports every matched record as
    failed. *)
Theorem tokenrealms_changes_nothing (e : exn) (generator : list (list tokenobj))
    (s : store) :
  tokenrealms_split = Raise e ->
  fst (Action.tokenrealms generator s) = s /\
  outcome_of (Action.tokenrealms generator) s = Ok tt /\
  writes (log_of (Action.tokenrealms generator) s)
  = flat_map (fun t => [ (Stdout, Diagnostic,
                          ("Failed to process token " +:+ token_serial t +:+ ".") +:+ nl);
                         (Stdout, Diagnostic, exn_msg e +:+ nl) ])
             (concat generator).
Proof.
  intros Hsplit. unfold Action.tokenrealms, log_of, outcome_of.
  set (out := fun t =>
         [ Emit Stdout Diagnostic
             (("Failed to process token " +:+ token_serial t +:+ ".") +:+ nl);
           Emit Stdout Diagnostic (exn_msg e +:+ nl) ]).
  match goal with
  | |- context [Acting.for_each generator ?body] =>
      assert (Hinner : forall tlist s',
                body tlist s' = (s', (flat_map out tlist, Ok tt)))
  end.
  { intros tlist s'.
    rewrite (for_each_uniform tlist _ (fun _ s => s) out).
    - rewrite fold_left_id. reflexivity.
    - intros t s1. rewrite Hsplit. reflexivity. }
  rewrite (for_each_uniform generator _ (fun _ s => s) (fun tlist => flat_map out tlist)
             Hinner).
  rewrite fold_left_id. cbn [fst snd]. split; [reflexivity|]. split; [reflexivity|].
  clear Hinner.
  induction generator as [|tlist generator IH]; [reflexivity|].
  cbn [flat_map concat]. rewrite writes_app, flat_map_app, IH. f_equal.
  clear IH. induction tlist as [|t tlist IH]; [reflexivity|].
  cbn. rewrite <- IH. reflexivity.
Qed.

(** Without a text to set, [set_description] does nothing at all, and so
    does [delete_tokeninfo] for an empty key: no output, no change of the
    store, no error. *)
Theorem empty_argument_does_nothing (description : option string)
    (generator : list (list tokenobj)) (s : store) :
  truthy description = false ->
  Action.set_description description generator s = (s, ([], Ok tt)) /\
  Action.delete_tokeninfo (Some "") generator s = (s, ([], Ok tt)).
Proof.
  intros Hd. split.
  - unfold Action.set_description. rewrite Hd.
    rewrite (for_each_uniform generator _ (fun _ s => s) (fun _ => [])).
    + rewrite fold_left_id, flat_map_nil. reflexivity.
    + intros tlist s'.
      rewrite (for_each_uniform tlist _ (fun _ s => s) (fun _ => [])).
      * rewrite fold_left_id, flat_map_nil. reflexivity.
      * reflexivity.
  - unfold Action.delete_tokeninfo. cbn [Action.split_option py_split].
    unfold Acting.bind at 1. cbn [Acting.pure Traced.lift].
    rewrite (for_each_uniform generator _ (fun _ s => s) (fun _ => [])).
    + rewrite fold_left_id, flat_map_nil. reflexivity.
    + intros tlist s'. cbn [Acting.for_each]. unfold Acting.bind at 1.
      rewrite (for_each_uniform tlist _ (fun _ s => s) (fun _ => [])).
      * rewrite fold_left_id, flat_map_nil. reflexivity.
      * reflexivity.
Qed.

(** An entry of [set_tokeninfo] without a colon is an [IndexError] as soon
    as there is a list of matched records: the command raises before it
    writes anything or touches the store. *)
Theorem set_tokeninfo_needs_a_colon (text : string) (tlist : list tokenobj)
    (generator : list (list tokenobj)) (s : store) :
  existsb (Ascii.eqb ",") (list_ascii_of_string text) = false ->
  existsb (Ascii.eqb ":") (list_ascii_of_string text) = false ->
  Action.set_tokeninfo (Some text) (tlist :: generator) s
  = (s, ([], Raise (Exn IndexError "list index out of range"))).
Proof.
  intros Hcomma Hcolon. unfold Action.set_tokeninfo.
  cbn [Action.split_option]. rewrite (py_split_without_separator _ _ Hcomma).
  unfold Acting.bind at 1. cbn [Acting.pure Traced.lift Acting.for_each].
  unfold Acting.bind at 1. unfold Acting.bind at 1. unfold Acting.bind at 1.
  unfold Action.value_and_key. rewrite (py_split_without_separator _ _ Hcolon).
  reflexivity.
Qed.

End MutationFacts.

(** ** Further properties of listing and export *)

Section ListingFacts.
Context `{Libraries} {store : Type} `{TokenLibrary store}.

Lemma export_token_row_returns t attributes :
  exists more, snd (Action.export_token_row t attributes)
               = Ok (token_serial t :: token_tokentype t :: more).
Proof.
  unfold Action.export_token_row.
  match goal with |- context [match ?r with Ok _ => _ | Raise _ => _ end] => destruct r end;
    cbn; eauto.
Qed.

Lemma export_token_data_one_row_rows token_list attributes :
  exists rows,
    snd (Action.export_token_data token_list attributes) = Ok rows /\
    List.length rows = List.length token_list.
Proof.
  induction token_list as [|t token_list (rows & Hr & Hlen)].
  - exists []. split; reflexivity.
  - destruct (export_token_row_returns t attributes) as [more Hrow].
    exists ((token_serial t :: token_tokentype t :: more) :: rows).
    cbn [Action.export_token_data].
    rewrite traced_bind_snd, Hrow. cbv beta iota.
    rewrite traced_bind_snd, Hr. split; [reflexivity|]. cbn. rewrite Hlen. reflexivity.
Qed.

Lemma export_token_data_rows_exist token_list attributes :
  exists rows, snd (Action.export_token_data token_list attributes) = Ok rows.
Proof.
  destruct (export_token_data_one_row_rows token_list attributes) as (rows & Hr & _). eauto.
Qed.

(** [export_token_data] never raises: it returns one row for each token, in
    the order of the list, and each row starts with the serial and the type
    of its token. *)
Theorem export_token_data_one_row_per_token (token_list : list tokenobj)
    (attributes : option string) :
  exists rows,
    snd (Action.export_token_data token_list attributes) = Ok rows /\
    Forall2 (fun t row => exists more, row = token_serial t :: token_tokentype t :: more)
            token_list rows.
Proof.
  induction token_list as [|t token_list (rows & Hr & Hall)].
  - exists []. split; [reflexivity|constructor].
  - destruct (export_token_row_returns t attributes) as [more Hrow].
    exists ((token_serial t :: token_tokentype t :: more) :: rows).
    cbn [Action.export_token_data].
    rewrite traced_bind_snd, Hrow. cbv beta iota.
    rewrite traced_bind_snd, Hr. split; [reflexivity|].
    constructor; [eauto|exact Hall].
Qed.

(** A token without a user is listed with its serial and type only; when
    additional attributes are asked for, reading them from the missing user
    fails, and the token is reported and marked as one whose user could not
    be resolved. *)
Theorem unassigned_token_row (t : tokenobj) (attributes : option string) :
  token_user t = Ok None ->
  Action.export_token_row t attributes
  = if truthy attributes
    then ([Emit Stderr Diagnostic
             ("Failed to determine user for token " +:+ token_serial t +:+ "." +:+ nl)],
          Ok [token_serial t; token_tokentype t; "**failed to resolve user**"])
    else ([], Ok [token_serial t; token_tokentype t]).
Proof.
  intros Hu. unfold Action.export_token_row, Action.attribute_columns.
  rewrite Hu. cbn [bind]. destruct (truthy attributes); reflexivity.
Qed.

(** [export_user_data] reads the variable [user] after a failed assignment:
    when the user of the first token of a list cannot be determined, the
    function writes its diagnostic and then raises [UnboundLocalError]. *)
Theorem export_user_data_first_failure (t : tokenobj) (rest : list tokenobj)
    (attributes : option string) (e : exn) :
  token_user t = Raise e ->
  Action.export_user_data (t :: rest) attributes
  = ([Emit Stderr Diagnostic
        ("Failed to determine user for token " +:+ token_serial t +:+ "." +:+ nl)],
     Raise (Exn UnboundLocalError "local variable 'user' referenced before assignment")).
Proof.
  intros Hu. unfold Action.export_user_data. cbn [Action.export_user_data_loop].
  rewrite Hu. reflexivity.
Qed.

(** After a token whose user was determined, a token whose user cannot be
    determined is counted for the user of the token before it. *)
Theorem unresolved_token_counted_for_previous_user (t1 t2 : tokenobj) (u : option user_obj)
    (attributes : option string) (uid : string) (e : exn) :
  token_user t1 = Ok u ->
  Action.user_uid_string u attributes = Ok uid ->
  token_user t2 = Raise e ->
  snd (Action.export_user_data [t1; t2] attributes)
  = Ok [(uid, [token_serial t1; token_serial t2])].
Proof.
  intros H1 Hid H2. unfold Action.export_user_data.
  cbn [Action.export_user_data_loop]. rewrite H1, H2. cbn. rewrite Hid. cbn.
  rewrite String.eqb_refl. reflexivity.
Qed.

Lemma users_add_keys users uid serial :
  NoDup (map fst users) -> NoDup (map fst (Action.users_add users uid serial)).
Proof.
  induction users as [|[k serials] users IH]; cbn [Action.users_add map fst].
  - intros _. constructor; [apply not_elem_of_nil|constructor].
  - intros Hnd. apply NoDup_cons in Hnd as [Hk Hnd].
    destruct (String.eqb_spec k uid) as [->|Hne]; cbn [map fst].
    + apply NoDup_cons. split; assumption.
    + apply NoDup_cons. split; [|apply IH; exact Hnd].
      intros Hin. apply Hk. clear IH Hk Hnd.
      induction users as [|[k' s'] users IH]; cbn [Action.users_add map fst] in *.
      * apply list_elem_of_singleton in Hin. congruence.
      * destruct (String.eqb k' uid); cbn [map fst] in *; [exact Hin|].
        apply elem_of_cons in Hin as [->|Hin]; [left|right; apply IH; exact Hin].
Qed.

Lemma users_add_count users uid serial :
  List.length (concat (map snd (Action.users_add users uid serial)))
  = S (List.length (concat (map snd users))).
Proof.
  induction users as [|[k serials] users IH]; cbn [Action.users_add map snd concat].
  - reflexivity.
  - destruct (String.eqb k uid); cbn [map snd concat]; rewrite !length_app.
    + cbn. lia.
    + rewrite IH. lia.
Qed.

Ltac bind_snd :=
  rewrite traced_bind_snd;
  cbn [Traced.ret Traced.lift Traced.stderr_write Traced.emit Traced.print fst snd].

Lemma export_user_data_loop_groups tlist attributes :
  forall user users result,
    snd (Action.export_user_data_loop tlist attributes user users) = Ok result ->
    NoDup (map fst users) ->
    NoDup (map fst result) /\
    List.length (concat (map snd result))
    = (List.length (concat (map snd users)) + List.length tlist)%nat.
Proof.
  induction tlist as [|t tlist IH]; intros user users result;
    cbn [Action.export_user_data_loop].
  - cbn. intros [= <-] Hnd. split; [exact Hnd|lia].
  - bind_snd.
    assert (Hstep : forall u : option user_obj,
              snd (bound <~ Traced.lift (Ok u) ;;
                   uid <~ Traced.lift (Action.user_uid_string bound attributes) ;;
                   Action.export_user_data_loop tlist attributes (Some u)
                     (Action.users_add users uid (token_serial t))) = Ok result ->
              NoDup (map fst users) ->
              NoDup (map fst result) /\
              List.length (concat (map snd result))
              = (List.length (concat (map snd users)) + List.length (t :: tlist))%nat).
    { intros u. bind_snd. bind_snd.
      destruct (Action.user_uid_string u attributes) as [uid|e']; [|discriminate].
      intros Hr Hnd. apply IH in Hr as [Hk Hc]; [|apply users_add_keys; exact Hnd].
      split; [exact Hk|]. rewrite Hc, users_add_count. cbn. lia. }
    destruct (token_user t) as [u|e].
    + cbn [Traced.ret snd]. apply Hstep.
    + bind_snd. destruct user as [u|]; [apply Hstep|].
      bind_snd. discriminate.
Qed.

(** When [export_user_data] returns, every user appears once in its result
    and the serials listed under the users are as many as the tokens: the
    counts that [listuser --sum] prints add up to the number of matched
    tokens. *)
Theorem export_user_data_groups_all_tokens (token_list : list tokenobj)
    (attributes : option string) (users : list (string * list string)) :
  snd (Action.export_user_data token_list attributes) = Ok users ->
  NoDup (map fst users) /\
  List.length (concat (map snd users)) = List.length token_list.
Proof.
  intros Hr. apply export_user_data_loop_groups in Hr; [exact Hr|constructor].
Qed.

(** The csv export writes rows for HOTP and TOTP tokens only: when it
    returns, it has written exactly one payload line for each token of these
    two types and nothing for the others. *)
Theorem export_csv_rows_for_otp_tokens (b32 : option string) (tlist : list tokenobj) :
  forall token_dict,
    is_ok (snd (Action.export_csv b32 tlist token_dict)) = true ->
    List.length (fst (Action.export_csv b32 tlist token_dict))
    = List.length (List.filter is_otp_type tlist) /\
    Forall (fun e => exists text, e = Emit Stdout Payload text)
           (fst (Action.export_csv b32 tlist token_dict)).
Proof.
  induction tlist as [|t tlist IH]; intros token_dict; cbn [Action.export_csv List.filter].
  - intros _. split; [reflexivity|constructor].
  - unfold is_otp_type at 1.
    destruct (str_in (str_lower (token_tokentype t)) ["totp"; "hotp"]); cbn [negb].
    + rewrite !traced_bind_snd, !traced_bind_fst.
      destruct (token_to_dict t b32) as [d|e]; cbn [Traced.lift fst snd]; [|discriminate].
      rewrite !traced_bind_snd, !traced_bind_fst.
      destruct (Action.owner_of t) as [owner|e]; cbn [Traced.lift fst snd]; [|discriminate].
      rewrite !traced_bind_snd, !traced_bind_fst.
      cbn [Traced.print Traced.emit fst snd app].
      intros Hok. destruct (IH _ Hok) as [Hlen Hall].
      cbn [List.length]. rewrite Hlen. split; [reflexivity|].
      constructor; [eauto|exact Hall].
    + apply IH.
Qed.

(** The yaml export reads the variable [token_dict] in its error handler:
    when the first token of a run cannot be turned into a dictionary, the
    command raises [UnboundLocalError] instead of reporting the token, and
    nothing is exported. *)
Theorem export_yaml_first_failure (export_format : string) (b32 : option string)
    (t : tokenobj) (rest : list tokenobj) (generator : list (list tokenobj))
    (e : exn) (s : store) :
  str_is export_format "csv" = false ->
  str_is export_format "yaml" = true ->
  token_to_dict t b32 = Raise e ->
  Action.export export_format b32 ((t :: rest) :: generator) s
  = (s, ([], Raise (Exn UnboundLocalError
                      "local variable 'token_dict' referenced before assignment"))).
Proof.
  intros Hcsv Hyaml Hd. unfold Action.export, Acting.pure.
  cbn [Action.export_batches]. rewrite Hcsv, Hyaml.
  cbn [Action.export_yaml]. rewrite Hd. reflexivity.
Qed.

Lemma export_token_row_log t attributes :
  payload_lines (writes (fst (Action.export_token_row t attributes))) = [].
Proof.
  unfold Action.export_token_row.
  match goal with |- context [match ?r with Ok _ => _ | Raise _ => _ end] => destruct r end;
    reflexivity.
Qed.

Lemma payload_lines_app l1 l2 : payload_lines (l1 ++ l2) = payload_lines l1 ++ payload_lines l2.
Proof. apply flat_map_app. Qed.

Lemma export_token_data_log token_list attributes :
  payload_lines (writes (fst (Action.export_token_data token_list attributes))) = [].
Proof.
  induction token_list as [|t token_list IH]; [reflexivity|].
  cbn [Action.export_token_data]. rewrite traced_bind_fst.
  destruct (export_token_row_returns t attributes) as [more ->].
  rewrite traced_bind_fst.
  destruct (export_token_data_rows_exist token_list attributes) as [rows ->].
  cbn [Traced.ret fst]. rewrite app_nil_r, !writes_app, !payload_lines_app.
  rewrite export_token_row_log, IH. reflexivity.
Qed.

(** Without [--sum], [listuser] never raises and prints exactly one row for
    each matched token, whether or not the token's user can be resolved. *)
Theorem listuser_prints_one_row_per_token (attributes : option string)
    (generator : list (list tokenobj)) (s : store) :
  outcome_of (Action.listuser false attributes generator) s = Ok tt /\
  List.length (payload_lines (writes (log_of (Action.listuser false attributes generator) s)))
  = List.length (concat generator).
Proof.
  unfold Action.listuser, outcome_of, log_of. cbn [negb].
  set (row_line := fun token : list string =>
         [Emit Stdout Payload (py_join "," (map quoted token) +:+ nl)]).
  set (rows_of := fun tlist =>
         match snd (Action.export_token_data tlist attributes) with
         | Ok rows => rows
         | Raise _ => []
         end).
  set (out := fun tlist =>
         fst (Action.export_token_data tlist attributes) ++ flat_map row_line (rows_of tlist)).
  rewrite (for_each_uniform generator _ (fun _ s => s) out).
  - cbn [fst snd]. split; [reflexivity|].
    induction generator as [|tlist generator IH]; [reflexivity|].
    cbn [flat_map concat]. rewrite writes_app, payload_lines_app, !length_app, IH.
    f_equal. unfold out, rows_of.
    rewrite writes_app, payload_lines_app, export_token_data_log. cbn [app].
    destruct (export_token_data_one_row_rows tlist attributes) as (rows & -> & Hlen).
    rewrite <- Hlen. clear. induction rows as [|row rows IH]; [reflexivity|].
    cbn. rewrite <- IH. reflexivity.
  - intros tlist s'. rewrite acting_bind_run. cbn [Acting.pure].
    unfold out, rows_of.
    destruct (export_token_data_rows_exist tlist attributes) as [rows Hrows].
    destruct (Action.export_token_data tlist attributes) as [log r].
    cbn [fst snd] in *. subst r.
    rewrite (for_each_uniform rows _ (fun _ s => s) row_line);
      [rewrite fold_left_id; reflexivity|].
    intros token s1. reflexivity.
Qed.

Lemma export_yaml_owner b32 tlist :
  forall token_dict acc token_dict' exported,
    snd (Action.export_yaml b32 tlist token_dict acc) = Ok (token_dict', exported) ->
    Forall (fun d => is_Some (d !! "owner")) acc ->
    Forall (fun d : gmap string string => is_Some (d !! "owner")) exported /\
    (List.length exported <= List.length acc + List.length tlist)%nat.
Proof.
  induction tlist as [|t tlist IH]; intros token_dict acc token_dict' exported;
    cbn [Action.export_yaml].
  - cbn. intros [= <- <-] Hacc. split; [exact Hacc|lia].
  - destruct (token_to_dict t b32) as [d|e].
    + destruct (Action.owner_of t) as [owner|e'].
      * intros Hr Hacc. apply IH in Hr as [Hall Hlen].
        -- split; [exact Hall|]. rewrite length_app in Hlen. cbn in *. lia.
        -- apply Forall_app. split; [exact Hacc|]. constructor; [|constructor].
           rewrite lookup_insert_eq. eauto.
      * bind_snd. intros Hr Hacc. apply IH in Hr as [Hall Hlen]; [|exact Hacc].
        split; [exact Hall|]. cbn. lia.
    + bind_snd. destruct token_dict as [d|]; [|discriminate].
      bind_snd. intros Hr Hacc. apply IH in Hr as [Hall Hlen]; [|exact Hacc].
      split; [exact Hall|]. cbn. lia.
Qed.

(** Every dictionary the yaml export hands to the encoder carries the key
    "owner", and there are at most as many as tokens: a token whose export
    failed is left out. *)
Theorem exported_dictionaries_have_owner (b32 : option string) (tlist : list tokenobj)
    (token_dict token_dict' : option (gmap string string))
    (exported : list (gmap string string)) :
  snd (Action.export_yaml b32 tlist token_dict []) = Ok (token_dict', exported) ->
  Forall (fun d : gmap string string => is_Some (d !! "owner")) exported /\
  (List.length exported <= List.length tlist)%nat.
Proof.
  intros Hr. apply export_yaml_owner in Hr; [exact Hr|constructor].
Qed.

End ListingFacts.

(** ** Properties of the maintenance commands *)

Section MaintenanceFacts.
Context {store : Type} `{MaintenanceLibrary store}.

Lemma import_loop_counts tokens :
  forall success failed failed_tokens s,
  exists s' log success' more,
    Maintenance.import_loop tokens success failed failed_tokens s
    = (s', (log, Ok (success', (failed + List.length more)%nat, failed_tokens ++ more))) /\
    (success' + List.length more = success + List.length tokens)%nat /\
    more `sublist_of` map fst tokens.
Proof.
  induction tokens as [|[serial data] tokens IH]; intros success failed failed_tokens s.
  - exists s, [], success, []. cbn. rewrite Nat.add_0_r, app_nil_r.
    split; [reflexivity|]. split; [lia|constructor].
  - cbn [Maintenance.import_loop].
    unfold Acting.bind at 1, Acting.try_exception, Acting.bind, Acting.print,
      Acting.call, Acting.pure, Acting.ret.
    destruct (import_token serial data s) as [s1 [[]|e]]; cbn.
    + destruct (IH (S success) failed failed_tokens s1)
        as (s' & log & success' & more & -> & Hsum & Hsub).
      do 2 eexists. exists success', more. split; [reflexivity|].
      split; [lia|]. apply sublist_cons. exact Hsub.
    + destruct (IH success (S failed) (failed_tokens ++ [serial]) s1)
        as (s' & log & success' & more & -> & Hsum & Hsub).
      do 2 eexists. exists success', (serial :: more).
      rewrite <- app_assoc. cbn [app List.length].
      replace (S failed + List.length more)%nat with (failed + S (List.length more))%nat
        by lia.
      split; [reflexivity|]. split; [lia|]. apply sublist_skip. exact Hsub.
Qed.

(** Once the file is decoded, [loadtokens] never raises: every token of the
    file is tried once, the failed serials are a selection of the file's
    serials in their order, and the two closing lines report counts that add
    up to the number of tokens in the file. *)
Theorem loadtokens_accounts_for_every_token
    (tokens : list (string * gmap string string)) (not_parsed_tokens : list string)
    (s : store) :
  exists (success : nat) (failed_tokens : list string) (before : list (stream * kind * string)),
    outcome_of (Maintenance.loadtokens (Ok (tokens, not_parsed_tokens))) s = Ok tt /\
    (success + List.length failed_tokens = List.length tokens)%nat /\
    failed_tokens `sublist_of` map fst tokens /\
    writes (log_of (Maintenance.loadtokens (Ok (tokens, not_parsed_tokens))) s)
    = before ++
      [ (Stdout, Progress,
         ("Successfully imported " +:+ str_of_nat success +:+ " tokens.") +:+ nl);
        (Stdout, Progress,
         ("Failed to import " +:+ str_of_nat (List.length failed_tokens) +:+ " tokens: "
            +:+ py_list_str failed_tokens) +:+ nl) ].
Proof.
  destruct (import_loop_counts tokens 0 0 [] s)
    as (s' & log & success & more & Hloop & Hsum & Hsub).
  cbn [app Nat.add] in Hloop.
  exists success, more.
  unfold Maintenance.loadtokens, outcome_of, log_of.
  rewrite acting_bind_run. cbn [Acting.pure Traced.lift fst snd].
  rewrite acting_bind_run, Hloop. cbn [fst snd].
  destruct (nonempty not_parsed_tokens); cbn.
  - eexists (writes log ++ [_]). split; [reflexivity|]. split; [lia|]. split; [exact Hsub|].
    rewrite writes_app. cbn. rewrite <- app_assoc. reflexivity.
  - exists (writes log). split; [reflexivity|]. split; [lia|]. split; [exact Hsub|].
    rewrite writes_app. reflexivity.
Qed.

Lemma update_one_returns tok :
  is_Some (tok !! "owner") -> always_returns (Maintenance.update_one tok).
Proof.
  intros [owner Ho] s. unfold Maintenance.update_one, outcome_of. rewrite Ho.
  unfold Acting.bind at 1. cbn.
  destruct (get_tokens_by_serial s _) as [|first rest]; [reflexivity|].
  unfold Acting.bind, Acting.try_exception, Acting.call, Acting.print, Acting.pure.
  cbn. destruct (token_update first _ s) as [s1 [[]|e]]; reflexivity.
Qed.

(** When every entry of the file has an owner, [updatetokens] returns:
    neither an unknown serial nor a failing update of a token ends the
    run. *)
Theorem updatetokens_returns (token_list : list (gmap string string)) (s : store) :
  Forall (fun tok => is_Some (tok !! "owner")) token_list ->
  outcome_of (Maintenance.updatetokens (Ok token_list)) s = Ok tt.
Proof.
  intros Hall. unfold Maintenance.updatetokens, outcome_of.
  unfold Acting.bind at 1. cbn [Acting.print Acting.pure Traced.print Traced.emit].
  unfold Acting.bind at 1. cbn [Acting.pure Traced.lift].
  assert (Hloop : forall s', outcome_of (Acting.for_each token_list Maintenance.update_one) s'
                             = Ok tt).
  { induction Hall as [|tok token_list Ho _ IH]; intros s'; [reflexivity|].
    unfold outcome_of. cbn [Acting.for_each]. unfold Acting.bind.
    pose proof (update_one_returns tok Ho s') as Hone. unfold outcome_of in Hone.
    destruct (Maintenance.update_one tok s') as [s1 [log1 r]]. cbn in Hone. subst r.
    specialize (IH s1). unfold outcome_of in IH.
    destruct (Acting.for_each token_list Maintenance.update_one s1) as [s2 [log2 r]].
    exact IH. }
  specialize (Hloop s). unfold outcome_of in Hloop.
  destruct (Acting.for_each token_list Maintenance.update_one s) as [s2 [log2 r]].
  exact Hloop.
Qed.

(** An entry without an owner ends [updatetokens] with the [KeyError] of
    [del tok["owner"]]: when it is the first entry, nothing but the opening
    line has been written and the store is untouched; the entries after it
    are not processed. *)
Theorem updatetokens_needs_owner (tok : gmap string string)
    (rest : list (gmap string string)) (s : store) :
  tok !! "owner" = None ->
  Maintenance.updatetokens (Ok (tok :: rest)) s
  = (s, ([Emit Stdout Progress ("Loading YAML data. This may take a while." +:+ nl)],
         Raise (key_error "owner"))).
Proof.
  intros Ho. unfold Maintenance.updatetokens.
  unfold Acting.bind at 1. cbn [Acting.print Acting.pure Traced.print Traced.emit].
  unfold Acting.bind at 1. cbn [Acting.pure Traced.lift Acting.for_each].
  unfold Acting.bind at 1. unfold Maintenance.update_one. rewrite Ho. reflexivity.
Qed.

End MaintenanceFacts.

(** ** The properties on the demo library and store *)

#[local] Existing Instance Demo.libraries.
#[local] Existing Instance Demo.token_library.



(** The two scans of that store on the temporary tokens. *)
Example chunked_scan_run :
  map (map token_serial)
    (yields (fst (_get_tokenlist Demo.inventory (with_chunksize Demo.temporary (Some 2)))))
  = [["A1"; "A2"]; []] /\
  map (map token_serial)
    (yields (fst (_get_tokenlist Demo.inventory (with_chunksize Demo.temporary None))))
  = [["A1"; "A2"]].
Proof. split; reflexivity. Qed.

(** C9 on the demo store: [A2] has no tokeninfo "last_used". *)
Lemma absent_value_witness :
  (filter_guard Demo.used_before_2020 TokeninfoValue = true /\
   looked_up Demo.used_before_2020 Demo.A2 TokeninfoValue = None) /\
  snd (check_token Demo.used_before_2020 Demo.A2) <> Ok true /\
  forall i : nat,
    ~ In (TokeninfoValue, i) (calls (fst (check_token Demo.used_before_2020 Demo.A2))).
Proof.
  split; [split; reflexivity|].
  apply (absent_value_excludes_without_comparing Demo.used_before_2020 Demo.A2 TokeninfoValue);
    reflexivity.
Defined.

(** The filter on the three demo tokens: [A1] is compared and matches, [A2]
    is excluded without a comparison, [B1] is compared and excluded. *)
Example absent_value_run :
  map (fun t => (calls (fst (check_token Demo.used_before_2020 t)),
                 snd (check_token Demo.used_before_2020 t)))
      [Demo.A1; Demo.A2; Demo.B1]
  = [ ([(TokeninfoValue, 0%nat)], Ok true);
      ([], Ok false);
      ([(TokeninfoValue, 0%nat)], Ok false) ].
Proof. reflexivity. Qed.

(** C10 on the demo store: [B1] was used recently. *)
Lemma recency_witness :
  truthy (last_auth Demo.stale) = true /\
  (let newer := check_last_auth_newer Demo.B1 (or_empty (last_auth Demo.stale)) in
   let others := check_token (with_last_auth Demo.stale None) Demo.B1 in
   check_token Demo.stale Demo.B1
     = (if newer then ([Checked Recency false], Ok false)
        else (Checked Recency true :: fst others, snd others)) /\
   matches Demo.stale Demo.B1 = negb newer && matches (with_last_auth Demo.stale None) Demo.B1).
Proof.
  split; [reflexivity|].
  apply (recency_excludes_recently_used_first Demo.stale Demo.B1). reflexivity.
Defined.

(** C2. The store refuses to write the row of [A1].  [set_description],
    applied to the matched records [A1] and [A2], prints its line for [A1]
    and then lets the error of [A1] through: the command ends with that
    error, [A2] is never reached and no description is stored.
    [set_tokeninfo] and [delete_tokeninfo] end in the same way. *)
Theorem unguarded_actions_abort_on_failing_record :
  let run := Action.set_description (Some "retired") [[Demo.A1; Demo.A2]] Demo.inventory in
  snd (snd run) = Raise (Exn RuntimeError "row of A1 is locked") /\
  writes (fst (snd run))
    = [(Stdout, Progress, "Setting description for token A1: retired" +:+ nl)] /\
  Demo.descriptions (fst run) = [] /\
  outcome_of (Action.set_tokeninfo (Some "retired:state") [[Demo.A1; Demo.A2]]) Demo.inventory
    = Raise (Exn RuntimeError "row of A1 is locked") /\
  outcome_of (Action.delete_tokeninfo (Some "state") [[Demo.A1; Demo.A2]]) Demo.inventory
    = Raise (Exn RuntimeError "row of A1 is locked").
Proof. repeat split; reflexivity. Qed.

(** On the same records [disable] reports the failure of [A1] and goes on
    to disable [A2]. *)
Example disable_continues_after_failing_record :
  let run := Action.disable [[Demo.A1; Demo.A2]] Demo.inventory in
  snd (snd run) = Ok tt /\
  writes (fst (snd run))
    = [ (Stdout, Diagnostic, "Failed to process token A1." +:+ nl);
        (Stdout, Diagnostic, "row of A1 is locked" +:+ nl);
        (Stdout, Progress, "Disabling token A2" +:+ nl) ] /\
  Demo.disabled (fst run) = ["A2"].
Proof. repeat split; reflexivity. Qed.

(** C8: the run of [disable] above does not keep diagnostics on the error
    stream; the failure of [A1] is reported on the standard output. *)
Lemma disable_reports_failure_on_stdout :
  ~ Forall separated (writes (log_of (Action.disable [[Demo.A1; Demo.A2]]) Demo.inventory)).
Proof.
  intros Hall. apply Forall_cons_1 in Hall as [Hfirst _].
  vm_compute in Hfirst. discriminate Hfirst.
Qed.

(** The listing of the three demo tokens: the rows on the standard output,
    the two failures to resolve a user on the error stream. *)
Example listuser_run :
  map (fun w => (fst (fst w), snd (fst w)))
      (writes (log_of (Action.listuser false None [[Demo.A1; Demo.A2; Demo.B1]])
                 Demo.inventory))
  = [ (Stderr, Diagnostic); (Stdout, Payload); (Stdout, Payload); (Stdout, Payload) ].
Proof. reflexivity. Qed.

(** ** The further properties on the demo library and stores *)

#[local] Existing Instance DemoMaintenance.maintenance_library.
#[local] Existing Instance DemoMaintenance.open_library.

(** GT 5 and LT 5 on the column value 7. *)
Lemma greater_less_witness :
  exists (n : Z) (a b : bool),
    py_int (VStr "5") = Ok n /\
    (fun value => try_except (n <- py_int value ;; Ok (n >? 5)) ValueError
                    (fun _ => Ok false)) (VInt 7) = Ok a /\
    (fun value => try_except (n <- py_int value ;; Ok (n <? 5)) ValueError
                    (fun _ => Ok false)) (VInt 7) = Ok b /\
    a && b = false /\
    (a || b = false <-> py_int (VInt 7) = Ok n \/ is_ok (py_int (VInt 7)) = false).
Proof.
  apply (greater_less_exclusive "failcount" "5" _ _ (VInt 7)); reflexivity.
Defined.

(** The operand 2020-01-01 carries no zone; the demo zone is one hour east. *)
Lemma naive_operand_witness :
  exists after before,
    _compare_after "last_used" "2020-01-01" = Ok after /\
    _compare_before "last_used" "2020-01-01" = Ok before /\
    after (VStr "2021-06-01T00:00+0000")
      = Ok (1622505600 * Demo.second - 0
            >? 1577836800 * Demo.second - tzlocal_utcoffset (1577836800 * Demo.second)) /\
    before (VStr "2021-06-01T00:00+0000")
      = Ok (1622505600 * Demo.second - 0
            <? 1577836800 * Demo.second - tzlocal_utcoffset (1577836800 * Demo.second)).
Proof.
  apply (naive_operand_is_local_time "last_used" "2020-01-01"
           (Datetime (1577836800 * Demo.second) None)
           (Datetime (1622505600 * Demo.second) (Some 0))
           (VStr "2021-06-01T00:00+0000") 0); reflexivity.
Defined.

(** A filter from a greater-than and a before option has two comparators. *)
Lemma built_filter_witness :
  List.length (Demo.filter_of
                 (build_tokenvalue_filter "last_used" None (Some "5") (Some "") None
                    (Some "2020-01-01")))
  = List.length (List.filter truthy [None; Some "5"; Some ""; None; Some "2020-01-01"]).
Proof.
  apply (built_filter_has_one_comparator_per_option "last_used"
           None (Some "5") (Some "") None (Some "2020-01-01")).
  reflexivity.
Defined.

(** The operand "abc" of a greater-than option. *)
Lemma filter_rejects_witness :
  build_tokenvalue_filter "failcount" (Some "7") (Some "abc") None None (Some "never")
  = Raise (Exn ClickException ("Not an integer: " +:+ "abc")).
Proof.
  apply (filter_rejects_non_integer_operand "failcount" "abc"
           (Some "7") None None (Some "never")); [discriminate|reflexivity].
Defined.

(** GT 5, then LT 3, then a comparator that would raise, on the value 7:
    the second comparator fails and the third is not applied. *)
Lemma filter_stops_witness :
  let gt5 : comparator := fun v => n <- py_int v ;; Ok (n >? 5) in
  let lt3 : comparator := fun v => n <- py_int v ;; Ok (n <? 3) in
  let bad : comparator := fun _ => Raise (Exn RuntimeError "not applied") in
  calls (fst (all_comparators AttributeValue 0 ([gt5] ++ lt3 :: [bad]) (VInt 7)))
    = map (fun j => (AttributeValue, (0 + j)%nat)) (seq 0 2) /\
  snd (all_comparators AttributeValue 0 ([gt5] ++ lt3 :: [bad]) (VInt 7))
    = match lt3 (VInt 7) with Ok _ => Ok false | Raise e => Raise e end.
Proof.
  intros gt5 lt3 bad.
  apply (filter_stops_at_first_failure AttributeValue 0 [gt5] [bad] lt3 (VInt 7)).
  - repeat constructor.
  - discriminate.
Defined.

(** The text " aB1 = " is matched, with the group "=". *)
Lemma criterion_pattern_witness :
  exists c : ascii,
    Re.groups (Re.Match " aB1 = " ["="]) = [String c ""] /\
    (c = "<" \/ c = ">" \/ c = "=")%char.
Proof.
  apply (criterion_pattern_captures_one_character " aB1 = "). reflexivity.
Defined.

(** [A1] is matched by the filter on "last_used" before 2020. *)
Lemma matched_witness :
  snd (check_token Demo.used_before_2020 Demo.A1) = Ok true.
Proof.
  apply (proj2 (matched_iff_all_conditions Demo.used_before_2020 Demo.A1)).
  repeat split; try discriminate.
  intros _. exists (VStr "2019-05-01T00:00+0000").
  split; [reflexivity|]. repeat constructor.
Defined.

(** The scan of the demo store without options. *)
Lemma scan_without_options_witness :
  snd (_get_tokenlist Demo.inventory
         (Selection None None None None [] None [] None (Some "hotp")
            None None None None None)) = Ok tt /\
  yields (fst (_get_tokenlist Demo.inventory
                 (Selection None None None None [] None [] None (Some "hotp")
                    None None None None None)))
    = [get_tokens Demo.inventory (Some "hotp") (tri_state None) (tri_state None)].
Proof.
  apply (scan_without_options_yields_everything Demo.inventory None None (Some "hotp")).
  reflexivity.
Defined.

(** Three records scanned, two temporary ones found. *)
Lemma final_progress_line_witness :
  In (Stderr, Progress,
      progress_line (List.length [Demo.A1; Demo.A2; Demo.B1])
        (List.length [Demo.A1; Demo.A2]) (cr +:+ nl))
     (writes (fst (scan_batch Demo.temporary [Demo.A1; Demo.A2; Demo.B1]))).
Proof.
  apply (final_progress_line_counts Demo.temporary [Demo.A1; Demo.A2; Demo.B1]).
  reflexivity.
Defined.

(** The operand "abc" against the integer column of [A1]. *)
Lemma check_error_witness :
  (exists e', snd (scan_batch DemoMaintenance.failcount_is_abc [Demo.B1; Demo.A1])
              = Raise e') /\
  yields (fst (scan_batch DemoMaintenance.failcount_is_abc [Demo.B1; Demo.A1])) = [].
Proof.
  apply (check_error_yields_nothing DemoMaintenance.failcount_is_abc [Demo.B1; Demo.A1]
           Demo.A1 (Exn ClickException "Not an integer: abc")).
  - right. left. reflexivity.
  - reflexivity.
Defined.

(** The same selection in chunks of one: the chunk of [B1] is yielded, then
    the chunk of [A1] raises. *)
Lemma later_error_witness :
  snd (scan_batches DemoMaintenance.failcount_is_abc ([Demo.B1] :: [Demo.A1] :: []))
    = Raise (Exn ClickException "Not an integer: abc") /\
  yields (fst (scan_batches DemoMaintenance.failcount_is_abc
                 ([Demo.B1] :: [Demo.A1] :: []))) = [[]].
Proof.
  apply (later_error_keeps_earlier_yield DemoMaintenance.failcount_is_abc
           [Demo.B1] [Demo.A1] [] [] (Exn ClickException "Not an integer: abc"));
    reflexivity.
Defined.

(** [disable] on the store where every state change succeeds. *)
Lemma disable_reports_witness :
  writes (log_of (Action.disable [[Demo.A1]; [Demo.A2; Demo.B1]]) ([] : list string))
  = map (fun t => (Stdout, Progress, "Disabling token " +:+ token_serial t +:+ nl))
        (concat [[Demo.A1]; [Demo.A2; Demo.B1]]).
Proof.
  apply (disable_reports_each_record (store := list string)
           [[Demo.A1]; [Demo.A2; Demo.B1]] []).
  reflexivity.
Defined.

(** [tokenrealms] on the demo store. *)
Lemma tokenrealms_witness :
  fst (Action.tokenrealms [[Demo.A2; Demo.B1]] Demo.inventory) = Demo.inventory /\
  outcome_of (Action.tokenrealms [[Demo.A2; Demo.B1]]) Demo.inventory = Ok tt /\
  writes (log_of (Action.tokenrealms [[Demo.A2; Demo.B1]]) Demo.inventory)
  = flat_map (fun t => [ (Stdout, Diagnostic,
                          ("Failed to process token " +:+ token_serial t +:+ ".") +:+ nl);
                         (Stdout, Diagnostic,
                          "'function' object has no attribute 'split'" +:+ nl) ])
             (concat [[Demo.A2; Demo.B1]]).
Proof.
  apply (tokenrealms_changes_nothing
           (Exn AttributeError "'function' object has no attribute 'split'")
           [[Demo.A2; Demo.B1]] Demo.inventory).
  reflexivity.
Defined.

(** [set_description] with an empty description. *)
Lemma empty_argument_witness :
  Action.set_description (Some "") [[Demo.A1; Demo.A2]] Demo.inventory
    = (Demo.inventory, ([], Ok tt)) /\
  Action.delete_tokeninfo (Some "") [[Demo.A1; Demo.A2]] Demo.inventory
    = (Demo.inventory, ([], Ok tt)).
Proof.
  apply (empty_argument_does_nothing (Some "") [[Demo.A1; Demo.A2]] Demo.inventory).
  reflexivity.
Defined.

(** [set_tokeninfo] with the text "retired". *)
Lemma set_tokeninfo_witness :
  Action.set_tokeninfo (Some "retired") ([Demo.A2] :: []) Demo.inventory
  = (Demo.inventory, ([], Raise (Exn IndexError "list index out of range"))).
Proof.
  apply (set_tokeninfo_needs_a_colon "retired" [Demo.A2] [] Demo.inventory); reflexivity.
Defined.

(** [A2] has no user. *)
Lemma unassigned_token_witness :
  Action.export_token_row Demo.A2 (Some "email")
  = if truthy (Some "email")
    then ([Emit Stderr Diagnostic
             ("Failed to determine user for token " +:+ token_serial Demo.A2 +:+ "." +:+ nl)],
          Ok [token_serial Demo.A2; token_tokentype Demo.A2; "**failed to resolve user**"])
    else ([], Ok [token_serial Demo.A2; token_tokentype Demo.A2]).
Proof.
  apply (unassigned_token_row Demo.A2 (Some "email")). reflexivity.
Defined.

(** The user of [B1] cannot be determined. *)
Lemma export_user_data_first_failure_witness :
  Action.export_user_data (Demo.B1 :: [Demo.A1]) None
  = ([Emit Stderr Diagnostic
        ("Failed to determine user for token " +:+ token_serial Demo.B1 +:+ "." +:+ nl)],
     Raise (Exn UnboundLocalError "local variable 'user' referenced before assignment")).
Proof.
  apply (export_user_data_first_failure Demo.B1 [Demo.A1] None
           (Exn RuntimeError "resolver unreachable")).
  reflexivity.
Defined.

(** [B1] after [A1] is counted for alice, the user of [A1]. *)
Lemma unresolved_token_witness :
  snd (Action.export_user_data [Demo.A1; Demo.B1] None)
  = Ok [("'alice','','','1000','resolver1','realm1'",
         [token_serial Demo.A1; token_serial Demo.B1])].
Proof.
  apply (unresolved_token_counted_for_previous_user Demo.A1 Demo.B1 (Some Demo.alice)
           None "'alice','','','1000','resolver1','realm1'"
           (Exn RuntimeError "resolver unreachable")); reflexivity.
Defined.

(** The users of the three demo tokens. *)
Lemma export_user_data_groups_witness :
  NoDup (map fst [ ("'alice','','','1000','resolver1','realm1'", ["A1"]);
                   ("N/A, , , , , ", ["A2"; "B1"]) ]) /\
  List.length (concat (map snd [ ("'alice','','','1000','resolver1','realm1'", ["A1"]);
                                 ("N/A, , , , , ", ["A2"; "B1"]) ]))
  = List.length [Demo.A1; Demo.A2; Demo.B1].
Proof.
  apply (export_user_data_groups_all_tokens [Demo.A1; Demo.A2; Demo.B1] None).
  reflexivity.
Defined.

(** The csv export of two OTP tokens and a registration token. *)
Lemma export_csv_witness :
  List.length (fst (Action.export_csv (store := Demo.store) None
                      [Demo.A1; DemoMaintenance.R1; Demo.A2] None))
  = List.length (List.filter is_otp_type [Demo.A1; DemoMaintenance.R1; Demo.A2]) /\
  Forall (fun e => exists text, e = Emit Stdout Payload text)
         (fst (Action.export_csv (store := Demo.store) None
                 [Demo.A1; DemoMaintenance.R1; Demo.A2] None)).
Proof.
  apply (export_csv_rows_for_otp_tokens (store := Demo.store) None
           [Demo.A1; DemoMaintenance.R1; Demo.A2] None).
  reflexivity.
Defined.

(** The yaml export of a list that starts with the registration token, on
    the store that serialises OTP tokens only. *)
Lemma export_yaml_witness :
  Action.export "yaml" None ([DemoMaintenance.R1; Demo.A1] :: []) ([] : list string)
  = ([], ([], Raise (Exn UnboundLocalError
                       "local variable 'token_dict' referenced before assignment"))).
Proof.
  apply (export_yaml_first_failure (store := list string) "yaml" None
           DemoMaintenance.R1 [Demo.A1] [] (Exn RuntimeError "cannot serialise R1") []);
    reflexivity.
Defined.

(** A file with two entries that have an owner: a locked token and an
    unknown serial. *)
Lemma updatetokens_returns_witness :
  outcome_of (Maintenance.updatetokens
                (Ok [ {[ "owner" := "alice@realm1"; "serial" := "A1" ]};
                      {[ "owner" := "n/a"; "serial" := "Z9" ]} ]))
             Demo.inventory = Ok tt.
Proof.
  apply (updatetokens_returns
           [ {[ "owner" := "alice@realm1"; "serial" := "A1" ]};
             {[ "owner" := "n/a"; "serial" := "Z9" ]} ] Demo.inventory).
  repeat constructor; vm_compute; eauto.
Defined.

(** A file whose first entry has no owner. *)
Lemma updatetokens_needs_owner_witness :
  Maintenance.updatetokens
    (Ok ({[ "serial" := "A2" ]} :: [ {[ "owner" := "n/a"; "serial" := "A1" ]} ]))
    Demo.inventory
  = (Demo.inventory,
     ([Emit Stdout Progress ("Loading YAML data. This may take a while." +:+ nl)],
      Raise (key_error "owner"))).
Proof.
  apply (updatetokens_needs_owner {[ "serial" := "A2" ]}
           [ {[ "owner" := "n/a"; "serial" := "A1" ]} ] Demo.inventory).
  reflexivity.
Defined.

(** [loadtokens] on the demo store: the row of [A1] is locked. *)
Example loadtokens_run :
  map (fun w => snd w)
      (writes (log_of (Maintenance.loadtokens
                         (Ok ([("N1", ∅); ("A1", ∅); ("N2", ∅)], ["Z9"])))
                 Demo.inventory))
  = [ "Importing token N1" +:+ nl;
      "Importing token A1" +:+ nl;
      "--- Failed to import token. row of A1 is locked" +:+ nl;
      "Importing token N2" +:+ nl;
      "The following tokens were not read from the PSKC file because they could not be validated: ['Z9']" +:+ nl;
      "Successfully imported 2 tokens." +:+ nl;
      "Failed to import 1 tokens: ['A1']" +:+ nl ].
Proof. reflexivity. Qed.

(** The yaml export of [A1], the registration token and [A2] on the store
    that serialises OTP tokens only: two dictionaries, each with an owner. *)
Lemma exported_dictionaries_witness :
  exists (token_dict : option (gmap string string)) (exported : list (gmap string string)),
    snd (Action.export_yaml (store := list string) None
           [Demo.A1; DemoMaintenance.R1; Demo.A2] None []) = Ok (token_dict, exported) /\
    Forall (fun d : gmap string string => is_Some (d !! "owner")) exported /\
    (List.length exported <= List.length [Demo.A1; DemoMaintenance.R1; Demo.A2])%nat.
Proof.
  eexists _, _. split; [reflexivity|].
  eapply (exported_dictionaries_have_owner (store := list string) None
            [Demo.A1; DemoMaintenance.R1; Demo.A2] None).
  reflexivity.
Defined.
